(** * Feedback console front end: notification aggregator, API gateway
      interceptor and public form validation

    A shallow embedding of three pieces of the TypeScript sources:

    - [src/contexts/NotificationContext.tsx]: the [NotificationProvider]
      component (list of notifications, unread counter, loading flag) and
      its operations [loadNotifications], [addNotification], [markAsRead],
      [markAllAsRead] and the three push-channel handlers;
    - [src/services/api.ts] (two revisions are present): the axios response
      interceptor that reacts to a 401 status;
    - [src/pages/PublicFeedbackForm.tsx]: [validateForm] and [handleSubmit].

    Modelling conventions.  A JavaScript [number] that holds an identifier
    or a count is an integer of [Z].  React state setters are applied to
    the latest state, which is what their functional form [prev => ...]
    guarantees in the source, so a completed call is one transition of the
    component state.  An [await]ed remote call is given its outcome
    (fulfilled or rejected) as an argument; [try]/[catch]/[finally] are
    combinators of a small state-and-rejection monad. *)

From stdpp Require Import base option list gmap strings pretty sorting.
From Stdlib Require Import ZArith Lia Ascii.

Local Open Scope Z_scope.

(** ** Promises, rejections and the effect monad *)

Module Async.

(** The [response] part of an axios error, as far as the sources read
    it: [error.response?.status], [error.response?.data?.message] and
    [error.response?.data?.error]. *)
Record ErrorResponse := mkErrorResponse {
  status : Z;
  data_message : option string;
  data_error : option string;
}.

(** A thrown value / rejection reason. *)
Record JsError := mkJsError {
  err_text : string;
  response : option ErrorResponse;
}.

(** How a promise settles. *)
Inductive Settled (A : Type) : Type :=
| Fulfilled (a : A)
| Rejected (e : JsError).
Global Arguments Fulfilled {A} a.
Global Arguments Rejected {A} e.

Definition is_fulfilled {A} (r : Settled A) : bool :=
  match r with Fulfilled _ => true | Rejected _ => false end.

(** A computation over a store [W] that either completes with a value or
    throws. *)
Definition Act (W A : Type) : Type := W → Settled A * W.

Definition act_ret {W A} (a : A) : Act W A := λ w, (Fulfilled a, w).

Definition act_bind {W A B} (f : A → Act W B) (m : Act W A) : Act W B :=
  λ w, match m w with
       | (Fulfilled a, w') => f a w'
       | (Rejected e, w') => (Rejected e, w')
       end.

Global Instance Act_ret {W} : MRet (Act W) := @act_ret W.
Global Instance Act_bind {W} : MBind (Act W) := @act_bind W.

(** [throw e] *)
Definition throw {W A} (e : JsError) : Act W A := λ w, (Rejected e, w).

(** [await p] for a promise whose outcome is known. *)
Definition await {W A} (p : Settled A) : Act W A := λ w, (p, w).

(** Reading the store. *)
Definition get {W} : Act W W := λ w, (Fulfilled w, w).

(** A plain store update. *)
Definition modify {W} (f : W → W) : Act W unit := λ w, (Fulfilled tt, f w).

(** [try { body } catch (error) { handler error }] *)
Definition try_catch {W A} (body : Act W A) (handler : JsError → Act W A)
  : Act W A :=
  λ w, match body w with
       | (Fulfilled a, w') => (Fulfilled a, w')
       | (Rejected e, w') => handler e w'
       end.

(** [try { body } finally { fin }]: [fin] runs on both exits; the outcome
    of [body] is kept unless [fin] itself throws. *)
Definition try_finally {W A} (body : Act W A) (fin : Act W unit) : Act W A :=
  λ w, match body w with
       | (r, w') =>
           match fin w' with
           | (Fulfilled _, w'') => (r, w'')
           | (Rejected e, w'') => (Rejected e, w'')
           end
       end.

(** [Promise.all([p, q])] on two already issued calls: fulfilled with both
    values when both are, rejected as soon as one of them is.  When both
    are rejected the reason is that of whichever settles first; the model
    takes the first of the array. *)
Definition Promise_all2 {A B} (p : Settled A) (q : Settled B) : Settled (A * B) :=
  match p, q with
  | Fulfilled a, Fulfilled b => Fulfilled (a, b)
  | Rejected e, _ => Rejected e
  | Fulfilled _, Rejected e => Rejected e
  end.

(** The store a computation leaves behind. *)
Definition exec {W A} (m : Act W A) (w : W) : W := snd (m w).

(** Its outcome. *)
Definition outcome {W A} (m : Act W A) (w : W) : Settled A := fst (m w).

End Async.

Import Async.

(** ** The notification aggregator ([NotificationContext.tsx]) *)

Module NotificationContext.

(** One alert.  The fields are those of the object literals built in the
    push handlers; [data] is the open bag of auxiliary fields. *)
Record Notification := mkNotification {
  id : Z;
  notification_type : string;
  title : string;
  message : string;
  is_read : bool;
  created_at : string;
  data : gmap string string;
}.

(** [{ ...notification, is_read: b }] *)
Definition with_is_read (b : bool) (n : Notification) : Notification :=
  {| id := id n;
     notification_type := notification_type n;
     title := title n;
     message := message n;
     is_read := b;
     created_at := created_at n;
     data := data n |}.

(** Calls made on [notificationsAPI]. *)
Inductive ApiCall :=
| GetNotifications
| GetUnreadCount
| PostMarkAsRead (id : Z)
| PostMarkAllAsRead.

(** Notices sent through [websocketService]. *)
Inductive WsNotice :=
| WsMarkNotificationAsRead (id : Z)
| WsMarkAllNotificationsAsRead.

(** The three [useState] cells of the provider, together with what the
    component did to the outside: lines written with [console.error],
    calls issued on [notificationsAPI], notices handed to
    [websocketService] (most recent first). *)
Record World := mkWorld {
  notifications : list Notification;
  unreadCount : Z;
  loading : bool;
  console : list (string * JsError);
  requests : list ApiCall;
  ws_sent : list WsNotice;
}.

(** [useState([])], [useState(0)], [useState(true)]. *)
Definition initial : World :=
  {| notifications := []; unreadCount := 0; loading := true;
     console := []; requests := []; ws_sent := [] |}.

(** *** State setters and outside effects *)

Definition setNotifications (f : list Notification → list Notification)
  : Act World unit :=
  modify (λ w, {| notifications := f (notifications w);
                  unreadCount := unreadCount w; loading := loading w;
                  console := console w; requests := requests w;
                  ws_sent := ws_sent w |}).

Definition setUnreadCount (f : Z → Z) : Act World unit :=
  modify (λ w, {| notifications := notifications w;
                  unreadCount := f (unreadCount w); loading := loading w;
                  console := console w; requests := requests w;
                  ws_sent := ws_sent w |}).

Definition setLoading (b : bool) : Act World unit :=
  modify (λ w, {| notifications := notifications w;
                  unreadCount := unreadCount w; loading := b;
                  console := console w; requests := requests w;
                  ws_sent := ws_sent w |}).

Definition console_error (msg : string) (e : JsError) : Act World unit :=
  modify (λ w, {| notifications := notifications w;
                  unreadCount := unreadCount w; loading := loading w;
                  console := (msg, e) :: console w; requests := requests w;
                  ws_sent := ws_sent w |}).

(** Issuing a call on [notificationsAPI]; the promise it returns settles
    as [reply]. *)
Definition call {A} (c : ApiCall) (reply : Settled A) : Act World (Settled A) :=
  λ w, (Fulfilled reply,
        {| notifications := notifications w;
           unreadCount := unreadCount w; loading := loading w;
           console := console w; requests := c :: requests w;
           ws_sent := ws_sent w |}).

(** The websocket service is not part of the sources at hand; sending a
    notice is recorded and does not throw. *)
Definition ws_send (m : WsNotice) : Act World unit :=
  modify (λ w, {| notifications := notifications w;
                  unreadCount := unreadCount w; loading := loading w;
                  console := console w; requests := requests w;
                  ws_sent := m :: ws_sent w |}).

(** *** Operations *)

(** [loadNotifications]: both fetches are issued, then awaited together. *)
Definition loadNotifications
    (notificationsReply : Settled (list Notification))
    (unreadCountReply : Settled Z) : Act World unit :=
  try_finally
    (try_catch
       (setLoading true ;;
        p ← call GetNotifications notificationsReply;
        q ← call GetUnreadCount unreadCountReply;
        '(notificationsData, unread_count) ← await (Promise_all2 p q);
        setNotifications (λ _, notificationsData) ;;
        setUnreadCount (λ _, unread_count))
       (λ error, console_error "Failed to load notifications:" error))
    (setLoading false).

(** [addNotification] *)
Definition addNotification (notification : Notification) : Act World unit :=
  setNotifications (λ prev, notification :: prev) ;;
  setUnreadCount (λ prev, prev + 1).

(** [markAsRead] *)
Definition markAsRead (reply : Settled unit) (i : Z) : Act World unit :=
  try_catch
    (p ← call (PostMarkAsRead i) reply;
     await p ;;
     setNotifications (λ prev,
       map (λ notification,
              if bool_decide (id notification = i)
              then with_is_read true notification
              else notification) prev) ;;
     setUnreadCount (λ prev, Z.max 0 (prev - 1)) ;;
     ws_send (WsMarkNotificationAsRead i))
    (λ error, console_error "Failed to mark notification as read:" error).

(** [markAllAsRead] *)
Definition markAllAsRead (reply : Settled unit) : Act World unit :=
  try_catch
    (p ← call PostMarkAllAsRead reply;
     await p ;;
     setNotifications (λ prev, map (with_is_read true) prev) ;;
     setUnreadCount (λ _, 0) ;;
     ws_send WsMarkAllNotificationsAsRead)
    (λ error, console_error "Failed to mark all notifications as read:" error).

(** *** Push-channel handlers *)

(** What [Date.now()] and [new Date().toISOString()] return when a
    handler runs. *)
Record Clock := mkClock {
  now : Z;
  iso : string;
}.

(** Payload of a "notification" message; [msg_data] is absent when
    [data.data] is falsy. *)
Record NotificationMsg := mkNotificationMsg {
  msg_notification_type : string;
  msg_title : string;
  msg_message : string;
  msg_data : option (gmap string string);
}.

(** Payload of a "notification_count" message. *)
Record CountMsg := mkCountMsg {
  unread_count : Z;
}.

(** Payload of a "new_response" message. *)
Record NewResponseMsg := mkNewResponseMsg {
  form_id : string;
  response_id : string;
  form_title : string;
}.

Definition dquote : string := String "034"%char EmptyString.

(** Handler subscribed under the tag "notification". *)
Definition on_notification (clk : Clock) (d : NotificationMsg) : Act World unit :=
  let newNotification :=
    {| id := now clk;
       notification_type := msg_notification_type d;
       title := msg_title d;
       message := msg_message d;
       is_read := false;
       created_at := iso clk;
       data := default ∅ (msg_data d) |} in
  addNotification newNotification.

(** Handler subscribed under the tag "notification_count". *)
Definition on_notification_count (d : CountMsg) : Act World unit :=
  setUnreadCount (λ _, unread_count d).

(** Handler subscribed under the tag "new_response". *)
Definition on_new_response (clk : Clock) (d : NewResponseMsg) : Act World unit :=
  let newNotification :=
    {| id := now clk;
       notification_type := "new_response";
       title := "New Response Received";
       message := "New response received for " +:+ dquote +:+ form_title d +:+ dquote;
       is_read := false;
       created_at := iso clk;
       data := <["form_id" := form_id d]>
                 (<["response_id" := response_id d]>
                    (<["form_title" := form_title d]> ∅)) |} in
  addNotification newNotification.

(** *** Histories of completed calls *)

(** One completed call of an operation of the provider or one handled
    push message. *)
Inductive Event :=
| EvLoadNotifications (notificationsReply : Settled (list Notification))
                      (unreadCountReply : Settled Z)
| EvAddNotification (n : Notification)
| EvMarkAsRead (reply : Settled unit) (i : Z)
| EvMarkAllAsRead (reply : Settled unit)
| EvNotification (clk : Clock) (d : NotificationMsg)
| EvNotificationCount (d : CountMsg)
| EvNewResponse (clk : Clock) (d : NewResponseMsg).

Definition handle (ev : Event) : Act World unit :=
  match ev with
  | EvLoadNotifications r1 r2 => loadNotifications r1 r2
  | EvAddNotification n => addNotification n
  | EvMarkAsRead reply i => markAsRead reply i
  | EvMarkAllAsRead reply => markAllAsRead reply
  | EvNotification clk d => on_notification clk d
  | EvNotificationCount d => on_notification_count d
  | EvNewResponse clk d => on_new_response clk d
  end.

(** The state after a history, oldest event first. *)
Fixpoint run (evs : list Event) (w : World) : World :=
  match evs with
  | [] => w
  | ev :: evs' => run evs' (exec (handle ev) w)
  end.

(** The events that never take the counter from a server message:
    everything but the snapshot fetch and "notification_count". *)
Definition is_local (ev : Event) : bool :=
  match ev with
  | EvLoadNotifications _ _ | EvNotificationCount _ => false
  | _ => true
  end.

(** Number of entries of the list that are unread. *)
Definition unread_entries (l : list Notification) : Z :=
  Z.of_nat (length (filter (λ n, is_read n = false) l)).

(** *** The specification's reading of a failing markAsRead *)

(** What the specification says of a [markAsRead] whose remote call is
    rejected: the entries with the given id are read afterwards and the
    counter went down by one, floored at zero. *)
Definition optimistic_on_failure (w : World) (i : Z) (e : JsError) : Prop :=
  let w' := exec (markAsRead (Rejected e) i) w in
  Forall (λ n, id n = i → is_read n = true) (notifications w') ∧
  unreadCount w' = Z.max 0 (unreadCount w - 1).

(** *** Sample data *)

Definition sample (i : Z) (read : bool) : Notification :=
  {| id := i; notification_type := "new_response"; title := "Sample";
     message := "Sample message"; is_read := read;
     created_at := "2024-01-01T00:00:00.000Z"; data := ∅ |}.

Definition network_error : JsError :=
  {| err_text := "Network Error"; response := None |}.

Definition one_unread : World :=
  {| notifications := [sample 1 false]; unreadCount := 1; loading := false;
     console := []; requests := []; ws_sent := [] |}.

Definition one_read : World :=
  {| notifications := [sample 1 true]; unreadCount := 3; loading := false;
     console := []; requests := []; ws_sent := [] |}.

Definition sample_clock : Clock :=
  {| now := 1700000000000; iso := "2023-11-14T22:13:20.000Z" |}.

Definition sample_history : list Event :=
  [ EvMarkAsRead (Fulfilled tt) 5;
    EvNewResponse sample_clock
      {| form_id := "f1"; response_id := "r1"; form_title := "Survey" |};
    EvMarkAllAsRead (Rejected network_error);
    EvMarkAsRead (Fulfilled tt) 1700000000000;
    EvMarkAsRead (Fulfilled tt) 1700000000000;
    EvAddNotification (sample 2 false) ].

End NotificationContext.

(** ** The API gateway client ([services/api.ts]) *)

Module Api.

(** [s.includes(searchString)]: [searchString] occurs in [s]. *)
Fixpoint includes (s searchString : string) : bool :=
  String.prefix searchString s ||
  match s with
  | EmptyString => false
  | String _ s' => includes s' searchString
  end.

(** What the interceptors see of the browser: [localStorage],
    [window.location.pathname], and the assignments made to
    [window.location.href] (most recent first). *)
Record Browser := mkBrowser {
  localStorage : gmap string string;
  pathname : string;
  href_assigned : list string;
}.

Definition localStorage_removeItem (key : string) : Act Browser unit :=
  modify (λ b, {| localStorage := delete key (localStorage b);
                  pathname := pathname b;
                  href_assigned := href_assigned b |}).

Definition location_href_set (url : string) : Act Browser unit :=
  modify (λ b, {| localStorage := localStorage b;
                  pathname := pathname b;
                  href_assigned := url :: href_assigned b |}).

(** [error.response?.status === 401] *)
Definition is_unauthorized (error : JsError) : bool :=
  match response error with
  | Some r => bool_decide (status r = 401)
  | None => false
  end.

(** The two revisions of the module that are present. *)
Inductive Revision :=
| Unguarded    (* redirects on every 401 *)
| PathGuarded. (* looks at the current path first *)

(** The rejection handler given to [api.interceptors.response.use]; it
    ends with [return Promise.reject(error)]. *)
Definition onRejected (rev : Revision) (error : JsError) : Act Browser unit :=
  (if is_unauthorized error then
     localStorage_removeItem "authToken" ;;
     match rev with
     | Unguarded => location_href_set "/login"
     | PathGuarded =>
         b ← get;
         let currentPath := pathname b in
         if negb (includes currentPath "/login")
            && negb (includes currentPath "/feedback/")
         then location_href_set "/login"
         else mret tt
     end
   else mret tt) ;;
  throw error.

(** The views on which the guarded revision stays put: the path contains
    "/login" (the login view) or "/feedback/" (the public submission
    views). *)
Definition on_login_or_public_view (path : string) : bool :=
  includes path "/login" || includes path "/feedback/".

(** *** Sample data *)

Definition unauthorized : JsError :=
  {| err_text := "Request failed with status code 401";
     response := Some {| status := 401; data_message := None;
                         data_error := None |} |}.

Definition on_public_form : Browser :=
  {| localStorage := {[ "authToken" := "stale" ]};
     pathname := "/feedback/42";
     href_assigned := [] |}.

Definition on_dashboard : Browser :=
  {| localStorage := {[ "authToken" := "stale" ]};
     pathname := "/admin/dashboard";
     href_assigned := [] |}.

End Api.

(** ** The public submission form ([pages/PublicFeedbackForm.tsx]) *)

Module PublicFeedbackForm.

(** The values [handleAnswerChange] is called with: the text of an
    input, a rating, the list of ticked options. *)
Inductive AnswerValue :=
| AString (s : string)
| ANumber (z : Z)
| AArray (l : list string).

Record Question := mkQuestion {
  id : Z;
  text : string;
  question_type : string;
  is_required : bool;
  options : list string;
}.

Record FeedbackForm := mkFeedbackForm {
  title : string;
  description : string;
  questions : list Question;
}.

(** One element of [submitData.answers]. *)
Record SubmitAnswer := mkSubmitAnswer {
  question : Z;
  answer_text : string;
  answer_value : AnswerValue;
}.

Record SubmitFeedbackData := mkSubmitFeedbackData {
  form_ref : string;
  submitted_answers : list SubmitAnswer;
}.

(** What the component does to the outside, most recent first. *)
Inductive Effect :=
| PreventDefault
| Alert (msg : string)
| ConsoleError (msg : string) (e : JsError)
| SubmitFeedback (formId : string) (d : SubmitFeedbackData)
| Navigate (path : string).

(** The route parameter, the [useState] cells read or written by
    [validateForm] and [handleSubmit], and the effects so far.  [success]
    exists in the first revision of the page only; the second one
    navigates instead. *)
Record PageState := mkPageState {
  formId : string;
  form : option FeedbackForm;
  answers : gmap Z AnswerValue;
  submitting : bool;
  error : string;
  success : bool;
  effects : list Effect;
}.

Definition setAnswers (f : gmap Z AnswerValue → gmap Z AnswerValue)
  : Act PageState unit :=
  modify (λ w, {| formId := formId w; form := form w;
                  answers := f (answers w); submitting := submitting w;
                  error := error w; success := success w;
                  effects := effects w |}).

Definition setSubmitting (b : bool) : Act PageState unit :=
  modify (λ w, {| formId := formId w; form := form w;
                  answers := answers w; submitting := b;
                  error := error w; success := success w;
                  effects := effects w |}).

Definition setError (msg : string) : Act PageState unit :=
  modify (λ w, {| formId := formId w; form := form w;
                  answers := answers w; submitting := submitting w;
                  error := msg; success := success w;
                  effects := effects w |}).

Definition setSuccess (b : bool) : Act PageState unit :=
  modify (λ w, {| formId := formId w; form := form w;
                  answers := answers w; submitting := submitting w;
                  error := error w; success := b;
                  effects := effects w |}).

Definition perform (eff : Effect) : Act PageState unit :=
  modify (λ w, {| formId := formId w; form := form w;
                  answers := answers w; submitting := submitting w;
                  error := error w; success := success w;
                  effects := eff :: effects w |}).

(** [publicFeedbackAPI.submitFeedback(formId, data)]: the request goes
    out and the promise settles as [reply]. *)
Definition submitFeedback {A} (fid : string) (d : SubmitFeedbackData)
    (reply : Settled A) : Act PageState (Settled A) :=
  perform (SubmitFeedback fid d) ;; mret reply.

(** [handleAnswerChange] *)
Definition handleAnswerChange (questionId : Z) (value : AnswerValue)
  : Act PageState unit :=
  setAnswers (λ prev, <[questionId := value]> prev).

(** The test applied to [answers[question.id]]:
    [answer === undefined || answer === '' ||
     (Array.isArray(answer) && answer.length === 0)]. *)
Definition is_blank (answer : option AnswerValue) : bool :=
  match answer with
  | None => true
  | Some (AString s) => bool_decide (s = EmptyString)
  | Some (ANumber _) => false
  | Some (AArray l) => bool_decide (length l = 0%nat)
  end.

(** The [for ... of form.questions] loop of [validateForm], which returns
    [false] at the first required question with a blank answer. *)
Fixpoint validate_questions (ans : gmap Z AnswerValue) (qs : list Question)
  : bool :=
  match qs with
  | [] => true
  | q :: rest =>
      if is_required q && is_blank (ans !! id q)
      then false
      else validate_questions ans rest
  end.

(** [validateForm] *)
Definition validateForm (w : PageState) : bool :=
  match form w with
  | None => false
  | Some f => validate_questions (answers w) (questions f)
  end.

(** [value.join(', ')] *)
Fixpoint join (sep : string) (l : list string) : string :=
  match l with
  | [] => EmptyString
  | [x] => x
  | x :: rest => x +:+ sep +:+ join sep rest
  end.

(** [Array.isArray(value) ? value.join(', ') : String(value)] *)
Definition answer_text_of (value : AnswerValue) : string :=
  match value with
  | AArray l => join ", " l
  | AString s => s
  | ANumber z => pretty z
  end.

(** [Object.entries(answers)]: the keys are question ids, and integer
    keys are enumerated in ascending order. *)
Definition key_le (a b : Z * AnswerValue) : Prop := a.1 ≤ b.1.

Global Instance key_le_dec a b : Decision (key_le a b) :=
  decide (a.1 ≤ b.1).

Definition entries (ans : gmap Z AnswerValue) : list (Z * AnswerValue) :=
  merge_sort key_le (map_to_list ans).

Definition submitData (w : PageState) : SubmitFeedbackData :=
  {| form_ref := formId w;
     submitted_answers :=
       map (λ '(questionId, value),
              {| question := questionId;
                 answer_text := answer_text_of value;
                 answer_value := value |})
           (entries (answers w)) |}.

(** [error.response?.data?.message || fallback] *)
Definition message_or (error : JsError) (fallback : string) : string :=
  match response error with
  | Some r =>
      match data_message r with
      | Some m => if bool_decide (m = EmptyString) then fallback else m
      | None => fallback
      end
  | None => fallback
  end.

(** The two revisions of the page differ in what follows a fulfilled
    submission. *)
Inductive PageRevision :=
| ShowsThanks   (* [setSuccess(true)] *)
| Navigates.    (* [navigate('/feedback/submitted')] *)

Definition after_submit (rev : PageRevision) : Act PageState unit :=
  match rev with
  | ShowsThanks => setSuccess true
  | Navigates => perform (Navigate "/feedback/submitted")
  end.

(** [handleSubmit] *)
Definition handleSubmit {A} (rev : PageRevision) (reply : Settled A)
  : Act PageState unit :=
  perform PreventDefault ;;
  w ← get;
  if negb (validateForm w) then
    perform (Alert "Please fill in all required fields.")
  else
    try_finally
      (try_catch
         (setSubmitting true ;;
          p ← submitFeedback (formId w) (submitData w) reply;
          await p ;;
          after_submit rev)
         (λ err,
            perform (ConsoleError "Failed to submit feedback:" err) ;;
            setError (message_or err
                        "Failed to submit feedback. Please try again.")))
      (setSubmitting false).

(** An answer that counts as not given: [undefined], the empty string or
    an empty array. *)
Definition unanswered (answer : option AnswerValue) : Prop :=
  answer = None ∨
  answer = Some (AString EmptyString) ∨
  answer = Some (AArray []).

(** The submission requests among the effects. *)
Definition submissions (w : PageState) : list (string * SubmitFeedbackData) :=
  omap (λ eff, match eff with
               | SubmitFeedback fid d => Some (fid, d)
               | _ => None
               end) (effects w).

(** *** Sample data *)

Definition q_name : Question :=
  {| id := 1; text := "Your name"; question_type := "text";
     is_required := true; options := [] |}.

Definition q_topics : Question :=
  {| id := 2; text := "Topics"; question_type := "checkbox";
     is_required := true; options := ["Price"; "Quality"] |}.

Definition q_comment : Question :=
  {| id := 3; text := "Comment"; question_type := "textarea";
     is_required := false; options := [] |}.

Definition sample_form : FeedbackForm :=
  {| title := "Survey"; description := "Tell us";
     questions := [q_name; q_topics; q_comment] |}.

Definition loaded (ans : gmap Z AnswerValue) : PageState :=
  {| formId := "42"; form := Some sample_form; answers := ans;
     submitting := false; error := EmptyString; success := false;
     effects := [] |}.

Definition missing_topics : gmap Z AnswerValue :=
  <[1 := AString "Ada"]> (<[2 := AArray []]> ∅).

Definition all_answered : gmap Z AnswerValue :=
  <[1 := AString "Ada"]> (<[2 := AArray ["Price"; "Quality"]]> ∅).

End PublicFeedbackForm.

(** ** The counter against the list ([NotificationContext.tsx]) *)

Module NotificationSync.
Import NotificationContext.

(** The counter says what the list says. *)
Definition in_sync (w : World) : Prop :=
  unreadCount w = unread_entries (notifications w).

(** Number of unread entries of the list that carry the id [i]. *)
Definition unread_matches (i : Z) (l : list Notification) : Z :=
  Z.of_nat (length (filter (λ n, is_read n = false ∧ id n = i) l)).

(** Number of unread entries of the list with another id than [i]. *)
Definition unread_others (i : Z) (l : list Notification) : Z :=
  Z.of_nat (length (filter (λ n, is_read n = false ∧ id n ≠ i) l)).

(** The events after which the list is still the former list, possibly
    with more entries in front and more read flags set: all of them but a
    snapshot fetch whose two requests are fulfilled. *)
Definition keeps_list (ev : Event) : bool :=
  match ev with
  | EvLoadNotifications r1 r2 => negb (is_fulfilled r1 && is_fulfilled r2)
  | _ => true
  end.

(** The events that touch the counter and the list hand in hand: new
    unread entries, [markAllAsRead], and calls that are rejected. *)
Definition sync_safe (ev : Event) : bool :=
  match ev with
  | EvAddNotification n => negb (is_read n)
  | EvNotification _ _ | EvNewResponse _ _ => true
  | EvMarkAllAsRead _ => true
  | EvMarkAsRead reply _ => negb (is_fulfilled reply)
  | EvLoadNotifications r1 r2 => negb (is_fulfilled r1 && is_fulfilled r2)
  | EvNotificationCount _ => false
  end.

(** A [markAllAsRead] whose remote call is fulfilled. *)
Definition resyncs (ev : Event) : bool :=
  match ev with
  | EvMarkAllAsRead reply => is_fulfilled reply
  | _ => false
  end.

(** An entry and what it has become: every field but [is_read] is the
    same, and a set read flag stays set. *)
Definition aged (n n' : Notification) : Prop :=
  id n' = id n ∧
  notification_type n' = notification_type n ∧
  title n' = title n ∧
  message n' = message n ∧
  created_at n' = created_at n ∧
  data n' = data n ∧
  (is_read n = true → is_read n' = true).

(** *** Sample data *)

Definition same_instant : list Event :=
  [ EvNotification sample_clock
      {| msg_notification_type := "info"; msg_title := "A";
         msg_message := "first"; msg_data := None |};
    EvNewResponse sample_clock
      {| form_id := "f1"; response_id := "r1"; form_title := "Survey" |} ].

Definition resync_history : list Event :=
  same_instant ++ [EvMarkAllAsRead (Fulfilled tt); EvAddNotification (sample 9 false)].

Definition two_unread : World :=
  {| notifications := [sample 1 false; sample 2 false]; unreadCount := 2;
     loading := false; console := []; requests := []; ws_sent := [] |}.

End NotificationSync.

(** ** The request interceptor ([services/api.ts]) *)

Module ApiRequest.
Import Api.

(** What the request interceptor reads and writes of an axios request
    configuration. *)
Record RequestConfig := mkRequestConfig {
  url : string;
  headers : gmap string string;
}.

(** [localStorage.getItem(key)]: the stored string, or [null]. *)
Definition localStorage_getItem (key : string) : Act Browser (option string) :=
  b ← get; mret (localStorage b !! key).

(** The function given to [api.interceptors.request.use], the same in both
    revisions.  [if (token)] holds for a stored string that is not empty. *)
Definition onRequest (config : RequestConfig) : Act Browser RequestConfig :=
  token ← localStorage_getItem "authToken";
  match token with
  | Some t =>
      if bool_decide (t = EmptyString) then mret config
      else mret {| url := url config;
                   headers := <["Authorization" := "Token " +:+ t]>
                                (headers config) |}
  | None => mret config
  end.

(** *** Sample data *)

Definition get_forms : RequestConfig :=
  {| url := "/api/forms/";
     headers := {[ "Content-Type" := "application/json" ]} |}.

Definition server_error : JsError :=
  {| err_text := "Request failed with status code 500";
     response := Some {| status := 500; data_message := None;
                         data_error := None |} |}.

End ApiRequest.

(** ** Loading the public form and ticking options
       ([pages/PublicFeedbackForm.tsx]) *)

Module PublicFeedbackFormPage.
Import PublicFeedbackForm.

(** [Array.isArray(value) ? value : []] for
    [value = answers[question.id] || '']: the ticked options when the
    answer is an array, nothing otherwise. *)
Definition currentValues (w : PageState) (questionId : Z) : list string :=
  match answers w !! questionId with
  | Some (AArray l) => l
  | _ => []
  end.

(** The [onChange] handler of a checkbox of the question, for the option
    it stands for; [checked] is the state the box has just taken. *)
Definition checkbox_onChange (questionId : Z) (option : string) (checked : bool)
  : Act PageState unit :=
  w ← get;
  let cur := currentValues w questionId in
  handleAnswerChange questionId
    (AArray (if checked
             then cur ++ [option]
             else filter (λ v, v ≠ option) cur)).

(** The page with the two things [loadForm] needs on top of what
    [handleSubmit] uses: the [loading] cell and the calls made to
    [publicFeedbackAPI.getPublicForm] (most recent first). *)
Record Page := mkPage {
  loading : bool;
  fetched : list string;
  state : PageState;
}.

(** An action on the cells of [PageState], seen as an action on the
    page. *)
Definition lift {A} (m : Act PageState A) : Act Page A :=
  λ p, match m (state p) with
       | (r, s) => (r, {| loading := loading p; fetched := fetched p;
                          state := s |})
       end.

Definition setLoading (b : bool) : Act Page unit :=
  modify (λ p, {| loading := b; fetched := fetched p; state := state p |}).

Definition setForm (f : FeedbackForm) : Act PageState unit :=
  modify (λ w, {| formId := formId w; form := Some f;
                  answers := answers w; submitting := submitting w;
                  error := error w; success := success w;
                  effects := effects w |}).

Definition getPublicForm {A} (fid : string) (reply : Settled A)
  : Act Page (Settled A) :=
  modify (λ p, {| loading := loading p; fetched := fid :: fetched p;
                  state := state p |}) ;;
  mret reply.

(** [error.response?.data?.error || fallback] *)
Definition error_or (err : JsError) (fallback : string) : string :=
  match response err with
  | Some r =>
      match data_error r with
      | Some m => if bool_decide (m = EmptyString) then fallback else m
      | None => fallback
      end
  | None => fallback
  end.

(** [loadForm] *)
Definition loadForm (reply : Settled FeedbackForm) : Act Page unit :=
  try_finally
    (try_catch
       (setLoading true ;;
        p ← get;
        r ← getPublicForm (formId (state p)) reply;
        formData ← await r;
        lift (setForm formData))
       (λ err, lift (setError (error_or err "Failed to load form"))))
    (setLoading false).

(** The effect run when the page mounts: [if (formId) { loadForm(); }]. *)
Definition onMount (reply : Settled FeedbackForm) : Act Page unit :=
  p ← get;
  if bool_decide (formId (state p) = EmptyString) then mret tt
  else loadForm reply.

(** The page as [useState] creates it. *)
Definition mounted (fid : string) : Page :=
  {| loading := true; fetched := [];
     state := {| formId := fid; form := None; answers := ∅;
                 submitting := false; error := EmptyString;
                 success := false; effects := [] |} |}.

(** *** Sample data *)


Definition only_price : gmap Z AnswerValue :=
  <[1 := AString "Ada"]> (<[2 := AArray ["Price"]]> ∅).

End PublicFeedbackFormPage.

(** ** The question editor of the [CreateForm] and [EditForm] pages *)

Module FormEditor.

(** One question being edited.  [order] is a JavaScript number; [options]
    is an optional array. *)
Record CreateQuestionData := mkCreateQuestionData {
  text : string;
  question_type : string;
  is_required : bool;
  order : Z;
  options : option (list string);
}.

Record CreateFeedbackFormData := mkCreateFeedbackFormData {
  title : string;
  description : string;
  form_type : string;
  is_active : bool;
  expires_at : option string;
  questions : list CreateQuestionData;
}.

(** What the page does to the outside, most recent first. *)
Inductive Effect :=
| PreventDefault
| Alert (msg : string)
| ConsoleError (msg : string) (e : JsError)
| CreateFormCall (d : CreateFeedbackFormData)
| UpdateFormCall (formId : string) (d : CreateFeedbackFormData)
| Navigate (path : string).

(** The cells of the page that the editing functions and [handleSubmit]
    use.  [route_id] is the [id] route parameter of EditForm. *)
Record Editor := mkEditor {
  route_id : string;
  formData : CreateFeedbackFormData;
  loading : bool;
  effects : list Effect;
}.

(** [useState] of CreateForm. *)
Definition initial : Editor :=
  {| route_id := EmptyString;
     formData := {| title := EmptyString; description := EmptyString;
                    form_type := "general"; is_active := true;
                    expires_at := None; questions := [] |};
     loading := false;
     effects := [] |}.

Definition setFormData (d : CreateFeedbackFormData) : Act Editor unit :=
  modify (λ s, {| route_id := route_id s; formData := d;
                  loading := loading s; effects := effects s |}).

Definition setLoading (b : bool) : Act Editor unit :=
  modify (λ s, {| route_id := route_id s; formData := formData s;
                  loading := b; effects := effects s |}).

Definition perform (eff : Effect) : Act Editor unit :=
  modify (λ s, {| route_id := route_id s; formData := formData s;
                  loading := loading s; effects := eff :: effects s |}).

(** [{ ...formData, questions: qs }] *)
Definition with_questions (qs : list CreateQuestionData)
    (d : CreateFeedbackFormData) : CreateFeedbackFormData :=
  {| title := title d; description := description d;
     form_type := form_type d; is_active := is_active d;
     expires_at := expires_at d; questions := qs |}.

(** [{ ...q, order: i }], also what [q.order = i] makes of [q]. *)
Definition with_order (i : nat) (q : CreateQuestionData) : CreateQuestionData :=
  {| text := text q; question_type := question_type q;
     is_required := is_required q; order := Z.of_nat i;
     options := options q |}.

(** [qs.map((q, i) => ({ ...q, order: i }))], and the result of
    [qs.forEach((q, i) => { q.order = i; })] on the objects of [qs]. *)
Definition renumber (qs : list CreateQuestionData) : list CreateQuestionData :=
  imap with_order qs.

(** [qs.filter((_, i) => i !== index)] *)
Definition without_index {A} (index : nat) (l : list A) : list A :=
  (filter (λ iq, iq.1 ≠ index) (imap pair l)).*2.

(** [addQuestion] *)
Definition addQuestion : Act Editor unit :=
  s ← get;
  let newQuestion :=
    {| text := EmptyString; question_type := "text"; is_required := false;
       order := Z.of_nat (length (questions (formData s)));
       options := Some [] |} in
  setFormData
    (with_questions (questions (formData s) ++ [newQuestion]) (formData s)).

(** [removeQuestion] *)
Definition removeQuestion (index : nat) : Act Editor unit :=
  s ← get;
  let updatedQuestions := without_index index (questions (formData s)) in
  let reorderedQuestions := renumber updatedQuestions in
  setFormData (with_questions reorderedQuestions (formData s)).

Inductive Direction := Up | Down.

(** The error raised by [q.order = i] when [q] is [undefined]. *)
Definition type_error : JsError :=
  {| err_text := "TypeError"; response := None |}.

(** [moveQuestion].  The copy [updatedQuestions] shares its objects with
    the array of the state, so the loop that writes [q.order] writes into
    the questions of the state.  When both places hold a question, the two
    are exchanged, every question is renumbered and the new array is
    stored.  When one of the places is beyond the end, the exchange puts
    [undefined] into the copy; the loop renumbers the questions that come
    before it, then fails on it, and nothing is stored. *)
Definition moveQuestion (index : nat) (direction : Direction) : Act Editor unit :=
  s ← get;
  let qs := questions (formData s) in
  if match direction with
     | Up => bool_decide (index = 0%nat)
     | Down => bool_decide (S index = length qs)
     end
  then mret tt
  else
    let newIndex := match direction with
                    | Up => pred index
                    | Down => S index
                    end in
    match qs !! index, qs !! newIndex with
    | Some q_index, Some q_new =>
        let updatedQuestions := <[newIndex := q_index]> (<[index := q_new]> qs) in
        setFormData (with_questions (renumber updatedQuestions) (formData s))
    | _, _ =>
        let reached := Nat.min (Nat.min index newIndex) (length qs) in
        setFormData
          (with_questions (renumber (take reached qs) ++ drop reached qs)
                          (formData s)) ;;
        throw type_error
    end.

(** *** Histories of edits *)

Inductive Edit :=
| EdAdd
| EdRemove (index : nat)
| EdMove (index : nat) (direction : Direction).

Definition apply_edit (ed : Edit) : Act Editor unit :=
  match ed with
  | EdAdd => addQuestion
  | EdRemove index => removeQuestion index
  | EdMove index direction => moveQuestion index direction
  end.

(** The state after a list of edits, oldest first; a failing edit leaves
    the state it has reached and the next one goes on from there. *)
Fixpoint edit (eds : list Edit) (s : Editor) : Editor :=
  match eds with
  | [] => s
  | ed :: eds' => edit eds' (exec (apply_edit ed) s)
  end.

(** Every question carries its place as its [order]. *)
Definition well_ordered (qs : list CreateQuestionData) : Prop :=
  ∀ (i : nat) q, qs !! i = Some q → order q = Z.of_nat i.

(** A question without its [order]. *)
Definition content (q : CreateQuestionData)
  : string * string * bool * option (list string) :=
  (text q, question_type q, is_required q, options q).

(** The three ways a [moveQuestion] can go. *)
Inductive MoveCase (index : nat) (direction : Direction) (s : Editor) : Prop :=
| MoveNothing :
    moveQuestion index direction s = (Fulfilled tt, s) →
    MoveCase index direction s
| MoveSwap (i : nat) a b :
    questions (formData s) !! i = Some a →
    questions (formData s) !! S i = Some b →
    (index = i ∧ direction = Down) ∨ (index = S i ∧ direction = Up) →
    moveQuestion index direction s =
    (Fulfilled tt,
     {| route_id := route_id s;
        formData :=
          with_questions
            (renumber (<[i := b]> (<[S i := a]> (questions (formData s)))))
            (formData s);
        loading := loading s; effects := effects s |}) →
    MoveCase index direction s
| MoveThrow (reached : nat) :
    (length (questions (formData s)) ≤ index)%nat →
    moveQuestion index direction s =
    (Rejected type_error,
     {| route_id := route_id s;
        formData :=
          with_questions
            (renumber (take reached (questions (formData s)))
             ++ drop reached (questions (formData s)))
            (formData s);
        loading := loading s; effects := effects s |}) →
    MoveCase index direction s.

(** *** Sample data *)

Definition question_named (t : string) (o : Z) : CreateQuestionData :=
  {| text := t; question_type := "text"; is_required := false;
     order := o; options := Some [] |}.

Definition editing (qs : list CreateQuestionData) : Editor :=
  {| route_id := "7";
     formData := {| title := "Survey"; description := EmptyString;
                    form_type := "general"; is_active := true;
                    expires_at := None; questions := qs |};
     loading := false;
     effects := [] |}.

Definition three_questions : list CreateQuestionData :=
  [question_named "a" 0; question_named "b" 1; question_named "c" 2].

(** Orders as a server may have stored them. *)
Definition loaded_questions : list CreateQuestionData :=
  [question_named "a" 10; question_named "b" 20; question_named "c" 30].

End FormEditor.

(** ** Submitting an edited form ([CreateForm], [EditForm]), and the
       entry page ([UserAccess]) *)

Module FormSubmit.
Import FormEditor.

(** The characters of the model are code units below 256; among them
    [String.prototype.trim] strips tab, line feed, vertical tab, form
    feed, carriage return, space and no-break space. *)
Definition is_white_space (c : ascii) : bool :=
  let n := nat_of_ascii c in
  ((9 <=? n) && (n <=? 13) || (n =? 32) || (n =? 160))%nat.

(** The characters of a string, and back. *)
Fixpoint chars (s : string) : list ascii :=
  match s with
  | EmptyString => []
  | String c s' => c :: chars s'
  end.

Fixpoint of_chars (l : list ascii) : string :=
  match l with
  | [] => EmptyString
  | c :: l' => String c (of_chars l')
  end.

Fixpoint drop_white_space (l : list ascii) : list ascii :=
  match l with
  | c :: l' => if is_white_space c then drop_white_space l' else l
  | [] => []
  end.

(** [s.trim()] *)
Definition trim (s : string) : string :=
  of_chars
    (reverse (drop_white_space (reverse (drop_white_space (chars s))))).

(** [!s.trim()] *)
Definition blank (s : string) : bool := bool_decide (trim s = EmptyString).

(** What the server answers to a create or an update, as far as the pages
    read it. *)
Record SavedForm := mkSavedForm {
  saved_id : string;
  saved_title : string;
}.

(** [['radio', 'checkbox'].includes(question.question_type)] *)
Definition is_choice (question_type : string) : bool :=
  bool_decide (question_type = "radio") || bool_decide (question_type = "checkbox").

(** [!question.options || question.options.length < 2] *)
Definition too_few_options (o : option (list string)) : bool :=
  match o with
  | None => true
  | Some l => bool_decide (length l < 2)%nat
  end.

(** The validation loop of [handleSubmit], from place [i] on: the text
    of the alert for the first question found wanting, if any. *)
Fixpoint check_questions (i : nat) (qs : list CreateQuestionData) : option string :=
  match qs with
  | [] => None
  | question :: rest =>
      if blank (text question) then
        Some ("Please enter text for question " +:+ pretty (i + 1)%nat)
      else if is_choice (question_type question)
              && too_few_options (options question) then
        Some ("Question " +:+ pretty (i + 1)%nat +:+ " needs at least 2 options")
      else check_questions (S i) rest
  end.

(** The two pages share the checks and differ in the call and in what
    follows it. *)
Inductive Kind := Creating | Editing.

Definition save (kind : Kind) (s : Editor) (reply : Settled SavedForm)
  : Act Editor (Settled SavedForm) :=
  perform (match kind with
           | Creating => CreateFormCall (formData s)
           | Editing => UpdateFormCall (route_id s) (formData s)
           end) ;;
  mret reply.

Definition saved (kind : Kind) (r : SavedForm) : Act Editor unit :=
  match kind with
  | Creating =>
      perform (Navigate ("/admin/forms/" +:+ saved_id r +:+ "/analytics"))
  | Editing =>
      perform (Alert ("Form " +:+ NotificationContext.dquote +:+ saved_title r
                      +:+ NotificationContext.dquote
                      +:+ " updated successfully!")) ;;
      perform (Navigate "/admin/forms")
  end.

Definition not_saved (kind : Kind) (error : JsError) : Act Editor unit :=
  match kind with
  | Creating =>
      perform (ConsoleError "Failed to create form:" error) ;;
      perform (Alert "Failed to create form. Please try again.")
  | Editing =>
      perform (ConsoleError "Failed to update form:" error) ;;
      perform (Alert "Failed to update form. Please try again.")
  end.

(** [handleSubmit] of CreateForm and of EditForm *)
Definition handleSubmit (kind : Kind) (reply : Settled SavedForm)
  : Act Editor unit :=
  perform PreventDefault ;;
  s ← get;
  if blank (title (formData s)) then
    perform (Alert "Please enter a form title")
  else if bool_decide (length (questions (formData s)) = 0%nat) then
    perform (Alert "Please add at least one question")
  else
    match check_questions 0 (questions (formData s)) with
    | Some msg => perform (Alert msg)
    | None =>
        try_finally
          (try_catch
             (setLoading true ;;
              p ← save kind s reply;
              r ← await p;
              saved kind r)
             (λ error, not_saved kind error))
          (setLoading false)
    end.

(** The calls to [formsAPI.createForm] and [formsAPI.updateForm] among the
    effects. *)
Definition save_calls (s : Editor) : list CreateFeedbackFormData :=
  omap (λ eff, match eff with
               | CreateFormCall d | UpdateFormCall _ d => Some d
               | _ => None
               end) (effects s).

(** A string with a character that [trim] keeps. *)
Definition has_text (s : string) : Prop :=
  Exists (λ c, is_white_space c = false) (chars s).

(** A question with a text, and with two options at least when it is a
    single or multiple choice. *)
Definition passes (q : CreateQuestionData) : Prop :=
  has_text (text q) ∧
  (question_type q = "radio" ∨ question_type q = "checkbox" →
   ∃ l, options q = Some l ∧ (2 ≤ length l)%nat).

(** A form with a title, with a question at least, and whose questions
    all pass. *)
Definition submittable (d : CreateFeedbackFormData) : Prop :=
  has_text (title d) ∧
  questions d ≠ [] ∧
  Forall passes (questions d).

(** *** The entry page *)

Record Entry := mkEntry {
  formId : string;
  error : string;
  default_prevented : bool;
  visited : list string;
}.

(** [handleFormAccess] of UserAccess *)
Definition handleFormAccess : Act Entry unit :=
  modify (λ e, {| formId := formId e; error := error e;
                  default_prevented := true; visited := visited e |}) ;;
  e ← get;
  if blank (formId e) then
    modify (λ e, {| formId := formId e;
                    error := "Please enter a valid form ID";
                    default_prevented := default_prevented e;
                    visited := visited e |})
  else
    modify (λ e, {| formId := formId e; error := error e;
                    default_prevented := default_prevented e;
                    visited := ("/feedback/" +:+ trim (formId e)) :: visited e |}).

(** *** Sample data *)

Definition choice_question (t : string) (l : list string) : CreateQuestionData :=
  {| text := t; question_type := "radio"; is_required := true;
     order := 0; options := Some l |}.

Definition good_form : list CreateQuestionData :=
  [question_named "Your name" 0; choice_question "Colour" ["red"; "blue"]].

Definition bad_form : list CreateQuestionData :=
  [question_named "Your name" 0; choice_question "Colour" ["red"]].

Definition created : SavedForm :=
  {| saved_id := "12"; saved_title := "Survey" |}.

End FormSubmit.

(** ** Chart data of the [FormAnalytics] page *)

Module Charts.

(** What [getQuestionChartData] reads of a question's analytics.  The
    distribution is a JavaScript object: it is given by its entries in the
    order in which [Object.keys] enumerates them, each key once. *)
Record QuestionAnalytics := mkQuestionAnalytics {
  question_type : string;
  answer_distribution : list (string * Z);
}.

(** A colour setting of a dataset: one colour for all items, or one per
    item. *)
Inductive Colours :=
| OneColour (c : string)
| PerItem (cs : list string).

Record ChartData := mkChartData {
  labels : list string;
  dataset_label : option string;
  data : list Z;
  backgroundColor : Colours;
  borderColor : option Colours;
  borderWidth : Z;
  hoverBorderWidth : option Z;
}.

(** [Object.keys(o)] and [Object.values(o)] *)
Definition keys (o : list (string * Z)) : list string := o.*1.
Definition values (o : list (string * Z)) : list Z := o.*2.

(** [o[label] || 0]: an absent key and a count of 0 both give 0. *)
Definition count_or_zero (o : list (string * Z)) (label : string) : Z :=
  match list_find (λ kv, kv.1 = label) o with
  | Some (_, (_, v)) => v
  | None => 0
  end.

(** The colours of [generateColors], in the later revision. *)
Definition colors : list string :=
  ["#3B82F6"; "#EF4444"; "#10B981"; "#F59E0B"; "#8B5CF6";
   "#06B6D4"; "#F97316"; "#84CC16"; "#EC4899"; "#6366F1"].

(** [generateColors]:
    [Array.from({ length: count }, (_, i) => colors[i % colors.length])] *)
Definition generateColors (count : nat) : list string :=
  (λ i, colors !!! (i mod length colors)%nat) <$> seq 0 count.

(** [getQuestionChartData], later revision. *)
Definition getQuestionChartData (question : QuestionAnalytics) : ChartData :=
  let labels := keys (answer_distribution question) in
  let data := values (answer_distribution question) in
  let colors := generateColors (length labels) in
  {| labels := labels;
     dataset_label := None;
     data := data;
     backgroundColor := PerItem colors;
     borderColor := Some (PerItem ((λ color, color +:+ "80") <$> colors));
     borderWidth := 2;
     hoverBorderWidth := Some 3 |}.

(** The colours written out in the earlier revision. *)
Definition choice_colors : list string :=
  ["#3B82F6"; "#10B981"; "#F59E0B"; "#EF4444"; "#8B5CF6";
   "#06B6D4"; "#84CC16"; "#F97316"; "#EC4899"; "#6B7280"].

(** [getQuestionChartData], earlier revision: a bar per rating for the
    two rating types, the distribution as it comes for the choice types,
    and [null] for the others. *)
Definition getQuestionChartData_earlier (question : QuestionAnalytics)
  : option ChartData :=
  if bool_decide (question_type question = "rating")
     || bool_decide (question_type question = "rating_10") then
    let maxRating :=
      if bool_decide (question_type question = "rating") then 5%nat else 10%nat in
    let labels := (λ i, pretty (i + 1)%nat) <$> seq 0 maxRating in
    let data := count_or_zero (answer_distribution question) <$> labels in
    Some {| labels := labels;
            dataset_label := Some "Count";
            data := data;
            backgroundColor := OneColour "rgba(59, 130, 246, 0.8)";
            borderColor := Some (OneColour "rgba(59, 130, 246, 1)");
            borderWidth := 1;
            hoverBorderWidth := None |}
  else if bool_decide (question_type question = "radio")
          || bool_decide (question_type question = "checkbox")
          || bool_decide (question_type question = "yes_no") then
    let labels := keys (answer_distribution question) in
    let data := values (answer_distribution question) in
    Some {| labels := labels;
            dataset_label := None;
            data := data;
            backgroundColor := PerItem (take (length labels) choice_colors);
            borderColor := None;
            borderWidth := 1;
            hoverBorderWidth := None |}
  else None.

(** The colours of a per-item setting. *)
Definition item_colours (c : Colours) : list string :=
  match c with
  | OneColour _ => []
  | PerItem cs => cs
  end.

(** *** Sample data *)

Definition twelve_answers : QuestionAnalytics :=
  {| question_type := "checkbox";
     answer_distribution :=
       [("a", 1); ("b", 2); ("c", 3); ("d", 4); ("e", 5); ("f", 6);
        ("g", 7); ("h", 8); ("i", 9); ("j", 10); ("k", 11); ("l", 12)] |}.

Definition ratings : QuestionAnalytics :=
  {| question_type := "rating";
     answer_distribution := [("2", 4); ("5", 1); ("7", 3)] |}.

End Charts.

(** ** Deleting a form from the list (the [FormsList] page) *)

Module FormsList.

(** A row of the list, with the fields the page shows. *)
Record FeedbackForm := mkFeedbackForm {
  id : string;
  title : string;
  form_type : string;
  is_active : bool;
  is_expired : bool;
}.

Inductive Effect :=
| Confirm (msg : string)
| Alert (msg : string)
| ConsoleError (msg : string) (e : JsError)
| DeleteFormCall (formId : string).

Record Listing := mkListing {
  forms : list FeedbackForm;
  effects : list Effect;
}.

Definition setForms (l : list FeedbackForm) : Act Listing unit :=
  modify (λ s, {| forms := l; effects := effects s |}).

Definition perform (eff : Effect) : Act Listing unit :=
  modify (λ s, {| forms := forms s; effects := eff :: effects s |}).

(** [handleDeleteForm]; [confirmed] is what the user answers to
    [window.confirm], [reply] how [formsAPI.deleteForm] settles.  The list
    that is filtered is the one the page showed when the button was
    pressed. *)
Definition handleDeleteForm (confirmed : bool) (reply : Settled unit)
    (formId : string) : Act Listing unit :=
  s ← get;
  perform (Confirm "Are you sure you want to delete this form? This action cannot be undone.") ;;
  if confirmed then
    try_catch
      (perform (DeleteFormCall formId) ;;
       await reply ;;
       setForms (filter (λ form, id form ≠ formId) (forms s)))
      (λ err,
         perform (ConsoleError "Failed to delete form:" err) ;;
         perform (Alert "Failed to delete form"))
  else mret tt.

(** The delete requests among the effects. *)
Definition delete_calls (s : Listing) : list string :=
  omap (λ eff, match eff with
               | DeleteFormCall formId => Some formId
               | _ => None
               end) (effects s).

(** *** Sample data *)

Definition row (i t : string) : FeedbackForm :=
  {| id := i; title := t; form_type := "survey"; is_active := true;
     is_expired := false |}.

Definition three_rows : Listing :=
  {| forms := [row "a" "First"; row "b" "Second"; row "c" "Third"];
     effects := [] |}.

End FormsList.

(** ** Laws of the effect monad *)

Section AsyncFacts.
Context {W : Type}.

Lemma act_bind_ret {A B} (a : A) (f : A → Act W B) (w : W) :
  (mret a ≫= f) w = f a w.
Proof. reflexivity. Qed.

Lemma act_bind_throw {A B} (e : JsError) (f : A → Act W B) (w : W) :
  (throw e ≫= f) w = (Rejected e, w).
Proof. reflexivity. Qed.

Lemma try_catch_throw {A} (e : JsError) (h : JsError → Act W A) (w : W) :
  try_catch (throw e) h w = h e w.
Proof. reflexivity. Qed.

Lemma try_catch_fulfilled {A} (m : Act W A) (h : JsError → Act W A) (w : W) a w' :
  m w = (Fulfilled a, w') → try_catch m h w = (Fulfilled a, w').
Proof. intros Hm. unfold try_catch. by rewrite Hm. Qed.

(** The [finally] block runs whether the body completed or threw. *)
Lemma try_finally_runs {A} (m : Act W A) (g : W → W) (w : W) :
  exec (try_finally m (modify g)) w = g (exec m w).
Proof. unfold exec, try_finally, modify. by destruct (m w). Qed.

(** [Promise.all] is fulfilled only when both promises are. *)
Lemma Promise_all2_fulfilled {A B} (p : Settled A) (q : Settled B) :
  is_fulfilled (Promise_all2 p q) = is_fulfilled p && is_fulfilled q.
Proof. by destruct p, q. Qed.

End AsyncFacts.

(** ** Properties of the notification aggregator *)

Section NotificationContextFacts.
Import NotificationContext.

Implicit Types (w : World) (n : Notification) (i : Z) (e : JsError).

(** *** What each operation leaves behind *)

Lemma exec_addNotification n w :
  exec (addNotification n) w =
  {| notifications := n :: notifications w;
     unreadCount := unreadCount w + 1; loading := loading w;
     console := console w; requests := requests w; ws_sent := ws_sent w |}.
Proof. reflexivity. Qed.

Lemma exec_markAsRead_fulfilled i w :
  exec (markAsRead (Fulfilled tt) i) w =
  {| notifications :=
       map (λ n, if bool_decide (id n = i) then with_is_read true n else n)
           (notifications w);
     unreadCount := Z.max 0 (unreadCount w - 1); loading := loading w;
     console := console w;
     requests := PostMarkAsRead i :: requests w;
     ws_sent := WsMarkNotificationAsRead i :: ws_sent w |}.
Proof. reflexivity. Qed.

Lemma exec_markAsRead_rejected e i w :
  exec (markAsRead (Rejected e) i) w =
  {| notifications := notifications w;
     unreadCount := unreadCount w; loading := loading w;
     console := ("Failed to mark notification as read:", e) :: console w;
     requests := PostMarkAsRead i :: requests w;
     ws_sent := ws_sent w |}.
Proof. reflexivity. Qed.

Lemma exec_markAllAsRead_fulfilled w :
  exec (markAllAsRead (Fulfilled tt)) w =
  {| notifications := map (with_is_read true) (notifications w);
     unreadCount := 0; loading := loading w;
     console := console w;
     requests := PostMarkAllAsRead :: requests w;
     ws_sent := WsMarkAllNotificationsAsRead :: ws_sent w |}.
Proof. reflexivity. Qed.

Lemma exec_markAllAsRead_rejected e w :
  exec (markAllAsRead (Rejected e)) w =
  {| notifications := notifications w;
     unreadCount := unreadCount w; loading := loading w;
     console := ("Failed to mark all notifications as read:", e) :: console w;
     requests := PostMarkAllAsRead :: requests w;
     ws_sent := ws_sent w |}.
Proof. reflexivity. Qed.

Lemma exec_loadNotifications_fulfilled l c w :
  exec (loadNotifications (Fulfilled l) (Fulfilled c)) w =
  {| notifications := l; unreadCount := c; loading := false;
     console := console w;
     requests := GetUnreadCount :: GetNotifications :: requests w;
     ws_sent := ws_sent w |}.
Proof. reflexivity. Qed.

Lemma exec_loadNotifications_rejected r1 r2 w :
  is_fulfilled r1 = false ∨ is_fulfilled r2 = false →
  ∃ e, exec (loadNotifications r1 r2) w =
       {| notifications := notifications w; unreadCount := unreadCount w;
          loading := false;
          console := ("Failed to load notifications:", e) :: console w;
          requests := GetUnreadCount :: GetNotifications :: requests w;
          ws_sent := ws_sent w |}.
Proof.
  destruct r1 as [l|e1], r2 as [c|e2]; cbn; intros [?|?]; try discriminate;
    eexists; reflexivity.
Qed.

(** *** markAsRead *)

(** C1, as the code has it: when the remote mark-read call is rejected,
    the failure is logged (one [console.error] line carrying the
    rejection), and neither the list nor the counter nor the loading flag
    is touched; no push-channel notice is sent.  The local mutation comes
    after the [await], so there is nothing to roll back. *)
Theorem markAsRead_rejected_keeps_state w i e :
  let w' := exec (markAsRead (Rejected e) i) w in
  notifications w' = notifications w ∧
  unreadCount w' = unreadCount w ∧
  loading w' = loading w ∧
  console w' = ("Failed to mark notification as read:", e) :: console w ∧
  requests w' = PostMarkAsRead i :: requests w ∧
  ws_sent w' = ws_sent w.
Proof. rewrite exec_markAsRead_rejected. cbn. auto 10. Qed.

(** C1, the statement of the specification fails: with one unread entry
    of id 1 and a counter of 1, a rejected [markAsRead 1] leaves the entry
    unread and the counter at 1. *)
Lemma markAsRead_rejected_not_optimistic :
  ¬ optimistic_on_failure one_unread 1 network_error.
Proof.
  unfold optimistic_on_failure. rewrite exec_markAsRead_rejected. cbn.
  intros [_ Hc]. discriminate Hc.
Qed.

Lemma lookup_mark i (l : list Notification) (k : nat) n :
  l !! k = Some n →
  map (λ n, if bool_decide (id n = i) then with_is_read true n else n) l !! k
  = Some (if bool_decide (id n = i) then with_is_read true n else n).
Proof. intros H. by rewrite list_lookup_fmap, H. Qed.

(** C2: when some entry with the given id is unread and the remote call
    is fulfilled, that entry is read afterwards; every entry with that id
    keeps its place and its other fields and has its read flag set,
    entries with another id are
    untouched, and the counter becomes [max 0 (c - 1)]: one less when it
    was at least 1, and never negative. *)
Theorem markAsRead_fulfilled_unread w i :
  (∃ n, n ∈ notifications w ∧ id n = i ∧ is_read n = false) →
  let w' := exec (markAsRead (Fulfilled tt) i) w in
  (∃ k n, notifications w !! k = Some n ∧ id n = i ∧ is_read n = false ∧
          notifications w' !! k = Some (with_is_read true n)) ∧
  (∀ k n, notifications w !! k = Some n → id n = i →
          notifications w' !! k = Some (with_is_read true n)) ∧
  (∀ k n, notifications w !! k = Some n → id n ≠ i →
          notifications w' !! k = Some n) ∧
  length (notifications w') = length (notifications w) ∧
  Forall (λ n, id n = i → is_read n = true) (notifications w') ∧
  unreadCount w' = Z.max 0 (unreadCount w - 1) ∧
  (1 ≤ unreadCount w → unreadCount w' = unreadCount w - 1) ∧
  0 ≤ unreadCount w'.
Proof.
  intros (n0 & Hin & Hid & Hunread). rewrite exec_markAsRead_fulfilled. cbn.
  split.
  { apply list_elem_of_lookup in Hin as [k Hk]. exists k, n0.
    rewrite (lookup_mark _ _ _ _ Hk). by rewrite bool_decide_eq_true_2. }
  repeat split; try lia.
  - intros k n Hk Hi. rewrite (lookup_mark _ _ _ _ Hk).
    by rewrite bool_decide_eq_true_2.
  - intros k n Hk Hi. rewrite (lookup_mark _ _ _ _ Hk).
    by rewrite bool_decide_eq_false_2.
  - apply length_map.
  - apply Forall_fmap, Forall_forall. intros n _. cbn.
    case_bool_decide; [done | congruence].
Qed.

Lemma markAsRead_fulfilled_unread_witness :
  notifications (exec (markAsRead (Fulfilled tt) 1) one_unread)
  = [sample 1 true] ∧
  unreadCount (exec (markAsRead (Fulfilled tt) 1) one_unread) = 0.
Proof.
  assert (Hex : ∃ n, n ∈ notifications one_unread ∧ id n = 1 ∧ is_read n = false).
  { exists (sample 1 false). cbn. split; [apply list_elem_of_here | done]. }
  destruct (markAsRead_fulfilled_unread one_unread 1 Hex) as (_ & _ & _ & _ & _ & Hc & _).
  split; [reflexivity | exact Hc].
Defined.

(** C9: when no entry with the given id is unread (there is none, or it
    is read already) and the remote call is fulfilled, the list is what
    it was, and the counter is decremented all the same, floored at
    zero. *)
Theorem markAsRead_fulfilled_no_unread w i :
  Forall (λ n, id n = i → is_read n = true) (notifications w) →
  let w' := exec (markAsRead (Fulfilled tt) i) w in
  notifications w' = notifications w ∧
  unreadCount w' = Z.max 0 (unreadCount w - 1) ∧
  (1 ≤ unreadCount w → unreadCount w' = unreadCount w - 1).
Proof.
  intros Hall. rewrite exec_markAsRead_fulfilled. cbn.
  split; [| split; [done | lia]].
  induction Hall as [| n l Hn _ IH]; [done |].
  cbn. rewrite IH. f_equal.
  case_bool_decide as Hi; [| done].
  destruct n as [? ? ? ? r ? ?]. cbn in *. by rewrite (Hn Hi).
Qed.

Lemma markAsRead_fulfilled_no_unread_witness :
  notifications (exec (markAsRead (Fulfilled tt) 1) one_read)
  = [sample 1 true] ∧
  unreadCount (exec (markAsRead (Fulfilled tt) 1) one_read) = 2.
Proof.
  assert (Hall : Forall (λ n, id n = 1 → is_read n = true) (notifications one_read)).
  { cbn. repeat constructor. }
  destruct (markAsRead_fulfilled_no_unread one_read 1 Hall) as (Hl & Hc & _).
  split; [exact Hl | exact Hc].
Defined.

(** *** markAllAsRead *)

(** C3: a fulfilled [markAllAsRead] turns the list into the same list
    with every read flag set: same length, same order, every entry equal
    to the former one at its place but for [is_read], which is [true];
    the counter is 0 whatever it was. *)
Theorem markAllAsRead_fulfilled_all_read w :
  let w' := exec (markAllAsRead (Fulfilled tt)) w in
  Forall (λ n, is_read n = true) (notifications w') ∧
  unreadCount w' = 0 ∧
  length (notifications w') = length (notifications w) ∧
  (∀ k n, notifications w !! k = Some n →
     ∃ n', notifications w' !! k = Some n' ∧
           is_read n' = true ∧
           id n' = id n ∧
           notification_type n' = notification_type n ∧
           title n' = title n ∧
           message n' = message n ∧
           created_at n' = created_at n ∧
           data n' = data n).
Proof.
  rewrite exec_markAllAsRead_fulfilled. cbn. repeat split.
  - apply Forall_fmap, Forall_forall. by intros n _.
  - apply length_map.
  - intros k n Hk. exists (with_is_read true n).
    rewrite list_lookup_fmap, Hk. by repeat split.
Qed.

(** *** addNotification *)

Lemma run_adds (ns : list Notification) w :
  notifications (run (EvAddNotification <$> ns) w)
  = reverse ns ++ notifications w ∧
  unreadCount (run (EvAddNotification <$> ns) w)
  = unreadCount w + Z.of_nat (length ns).
Proof.
  revert w. induction ns as [| m ns IH]; intros w.
  - cbn. split; [done | lia].
  - cbn [fmap list_fmap run handle].
    destruct (IH (exec (addNotification m) w)) as [Hl Hc].
    rewrite Hl, Hc, exec_addNotification, reverse_cons, <- app_assoc. cbn.
    split; [done | lia].
Qed.

(** C4: one [addNotification n] puts [n] in front of the former list,
    which follows unchanged, so the length grows by one, and adds 1 to
    the counter; after the calls for [n1 ... nk] in this order the list
    is [nk ... n1] followed by the former list, its length grew by [k] and
    the counter by [k]. *)
Theorem addNotification_prepends (ns : list Notification) n w :
  (let w' := exec (addNotification n) w in
   notifications w' = n :: notifications w ∧
   length (notifications w') = S (length (notifications w)) ∧
   unreadCount w' = unreadCount w + 1) ∧
  (let w' := run (EvAddNotification <$> ns) w in
   notifications w' = reverse ns ++ notifications w ∧
   length (notifications w') = (length ns + length (notifications w))%nat ∧
   unreadCount w' = unreadCount w + Z.of_nat (length ns)).
Proof.
  split; [by rewrite exec_addNotification |].
  cbn zeta. destruct (run_adds ns w) as [Hl Hc].
  rewrite Hl, Hc, length_app, length_reverse. done.
Qed.

(** *** Push messages *)

(** C5: handling a "notification_count" message makes the counter the
    delivered value, whatever the counter and the list were, and leaves
    the list (and the loading flag) alone. *)
Theorem notification_count_overwrites (d : CountMsg) w :
  let w' := exec (on_notification_count d) w in
  unreadCount w' = unread_count d ∧
  notifications w' = notifications w ∧
  loading w' = loading w.
Proof. by cbn. Qed.

(** The delivered value may disagree with the number of unread entries. *)
Example notification_count_conflict :
  let w' := exec (on_notification_count {| unread_count := 7 |}) one_unread in
  unreadCount w' = 7 ∧ unread_entries (notifications w') = 1.
Proof. by cbn. Qed.

(** *** loadNotifications *)

(** C6: after [loadNotifications] the loading flag is false, whatever
    the two fetches did; when one of them is rejected, one line is
    logged, the list and the counter are what they were, and the two
    fetches have been issued once each, with no further call. *)
Theorem loadNotifications_settles r1 r2 w :
  let w' := exec (loadNotifications r1 r2) w in
  loading w' = false ∧
  (is_fulfilled r1 = false ∨ is_fulfilled r2 = false →
   notifications w' = notifications w ∧
   unreadCount w' = unreadCount w ∧
   (∃ e, console w' = ("Failed to load notifications:", e) :: console w) ∧
   requests w' = GetUnreadCount :: GetNotifications :: requests w).
Proof.
  cbn zeta. split.
  - by destruct r1, r2.
  - intros Hrej.
    destruct (exec_loadNotifications_rejected r1 r2 w Hrej) as [e ->].
    cbn. eauto.
Qed.

Lemma loadNotifications_settles_witness :
  loading (exec (loadNotifications (Fulfilled [sample 1 false])
                                   (Rejected network_error)) initial) = false ∧
  notifications (exec (loadNotifications (Fulfilled [sample 1 false])
                                         (Rejected network_error)) initial) = [] ∧
  unreadCount (exec (loadNotifications (Fulfilled [sample 1 false])
                                       (Rejected network_error)) initial) = 0 ∧
  requests (exec (loadNotifications (Fulfilled [sample 1 false])
                                    (Rejected network_error)) initial)
  = [GetUnreadCount; GetNotifications].
Proof.
  destruct (loadNotifications_settles (Fulfilled [sample 1 false])
              (Rejected network_error) initial) as [Hload Hrej].
  destruct Hrej as (Hn & Hc & _ & Hr); [right; reflexivity |].
  repeat split; assumption.
Defined.

(** The line that is logged carries the rejection. *)
Example loadNotifications_rejected_console :
  console (exec (loadNotifications (Fulfilled [sample 1 false])
                                   (Rejected network_error)) initial)
  = [("Failed to load notifications:", network_error)].
Proof. reflexivity. Qed.

(** *** The counter along a history *)

Lemma handle_local_nonneg ev w :
  is_local ev = true → 0 ≤ unreadCount w → 0 ≤ unreadCount (exec (handle ev) w).
Proof.
  intros Hloc Hw.
  destruct ev as [| |[[]|]|[[]|]| | |]; cbn [handle]; try discriminate Hloc.
  - rewrite exec_addNotification. cbn. lia.
  - rewrite exec_markAsRead_fulfilled. cbn. lia.
  - by rewrite exec_markAsRead_rejected.
  - by rewrite exec_markAllAsRead_fulfilled.
  - by rewrite exec_markAllAsRead_rejected.
  - unfold on_notification. rewrite exec_addNotification. cbn. lia.
  - unfold on_new_response. rewrite exec_addNotification. cbn. lia.
Qed.

Lemma run_local_nonneg evs w :
  forallb is_local evs = true → 0 ≤ unreadCount w → 0 ≤ unreadCount (run evs w).
Proof.
  revert w. induction evs as [| ev evs IH]; intros w Hloc Hw; [done |].
  cbn in Hloc. apply andb_prop in Hloc as [Hev Hevs].
  cbn [run]. apply IH; [done |]. by apply handle_local_nonneg.
Qed.

(** Nothing in [markAsRead] looks at the former read flag: a second
    fulfilled call on the same id takes one more off the counter. *)
Example markAsRead_twice :
  unreadCount
    (run [EvMarkAsRead (Fulfilled tt) 1; EvMarkAsRead (Fulfilled tt) 1]
         {| notifications := [sample 1 false; sample 2 false];
            unreadCount := 2; loading := false;
            console := []; requests := []; ws_sent := [] |}) = 0.
Proof. reflexivity. Qed.

(** C10: from the initial state, after any history made of
    [addNotification], [markAsRead] and [markAllAsRead] calls (fulfilled or
    rejected) and of handled "notification" and "new_response" messages,
    the counter is at least 0. *)
Theorem unreadCount_nonneg (evs : list Event) :
  forallb is_local evs = true → 0 ≤ unreadCount (run evs initial).
Proof. intros Hloc. by apply run_local_nonneg. Qed.

Lemma unreadCount_nonneg_witness :
  0 ≤ unreadCount (run sample_history initial).
Proof. apply (unreadCount_nonneg sample_history). reflexivity. Defined.

(** Without the floor the sample history would end below zero: its first
    event is a fulfilled [markAsRead] on the empty list. *)
Example sample_history_count :
  unreadCount (run sample_history initial) = 1.
Proof. reflexivity. Qed.

(** A "notification_count" message is outside these histories: it can
    bring any value. *)
Example notification_count_negative :
  unreadCount (run [EvNotificationCount {| unread_count := -1 |}] initial) = -1.
Proof. reflexivity. Qed.

End NotificationContextFacts.

(** ** Properties of the response interceptor *)

(** Unfolds the combinators of [Act] in the goal. *)
Ltac step_act :=
  cbv beta iota zeta delta
    [exec outcome mbind mret Act_bind Act_ret act_bind act_ret
     modify get throw await try_catch try_finally fst snd].

Section ApiFacts.
Import Api.

Lemma prefix_app (t s : string) :
  String.prefix t s = true ↔ ∃ b, s = t +:+ b.
Proof.
  revert s. induction t as [| c t IH]; intros s.
  - destruct s; cbn; split; eauto.
  - destruct s as [| d s]; cbn.
    + split; [discriminate | intros [b Hb]; discriminate Hb].
    + destruct (Ascii.ascii_dec c d) as [-> | Hne].
      * rewrite IH. split; intros [b Hb]; exists b.
        -- change (String d s = String d (t +:+ b)). by rewrite Hb.
        -- change (String d s = String d (t +:+ b)) in Hb. congruence.
      * split; [discriminate | intros [b Hb]].
        change (String d s = String c (t +:+ b)) in Hb. congruence.
Qed.

(** [includes] is substring containment. *)
Lemma includes_spec (s t : string) :
  includes s t = true ↔ ∃ a b, s = a +:+ t +:+ b.
Proof.
  induction s as [| c s IH]; cbn [includes].
  - rewrite orb_false_r, prefix_app. split.
    + intros [b Hb]. by exists EmptyString, b.
    + intros (a & b & Hab). destruct a; [by exists b | discriminate Hab].
  - rewrite orb_true_iff, prefix_app, IH. split.
    + intros [[b Hb] | (a & b & Hab)].
      * by exists EmptyString, b.
      * exists (String c a), b.
        change (String c s = String c (a +:+ t +:+ b)). by rewrite Hab.
    + intros (a & b & Hab). destruct a as [| d a].
      * left. by exists b.
      * right. exists a, b.
        change (String c s = String d (a +:+ t +:+ b)) in Hab. congruence.
Qed.

Lemma exec_onRejected_unguarded error b :
  is_unauthorized error = true →
  exec (onRejected Unguarded error) b =
  {| localStorage := delete "authToken" (localStorage b);
     pathname := pathname b;
     href_assigned := "/login" :: href_assigned b |}.
Proof.
  intros H401. unfold onRejected, exec. cbn. unfold act_bind. cbn.
  by rewrite H401.
Qed.

Lemma exec_onRejected_guarded error b :
  is_unauthorized error = true →
  exec (onRejected PathGuarded error) b =
  {| localStorage := delete "authToken" (localStorage b);
     pathname := pathname b;
     href_assigned :=
       if on_login_or_public_view (pathname b)
       then href_assigned b
       else "/login" :: href_assigned b |}.
Proof.
  intros H401. unfold onRejected, exec, on_login_or_public_view.
  rewrite H401. step_act.
  cbv [localStorage_removeItem location_href_set]. step_act.
  cbn [pathname localStorage href_assigned].
  by destruct (includes (pathname b) "/login"),
              (includes (pathname b) "/feedback/").
Qed.

(** Any other failure passes through both revisions without a trace. *)
Lemma exec_onRejected_other rev error b :
  is_unauthorized error = false → exec (onRejected rev error) b = b.
Proof.
  intros H. unfold onRejected, exec. cbn. unfold act_bind. cbn.
  by rewrite H.
Qed.

(** The rejection is always handed on to the caller. *)
Lemma outcome_onRejected rev error b :
  outcome (onRejected rev error) b = Rejected error.
Proof.
  unfold onRejected.
  destruct (is_unauthorized error), rev; step_act;
    cbv [localStorage_removeItem location_href_set]; step_act; try done.
  cbn [pathname].
  by destruct (includes (pathname b) "/login"),
              (includes (pathname b) "/feedback/").
Qed.

(** The revision that reads the current path does what the specification
    says on a 401: the token is gone from the store; on a path containing
    "/login" or "/feedback/" no redirect is made, anywhere else
    [window.location.href] is set to "/login". *)
Theorem guarded_interceptor_on_401 error b :
  is_unauthorized error = true →
  let b' := exec (onRejected PathGuarded error) b in
  localStorage b' !! "authToken" = None ∧
  (on_login_or_public_view (pathname b) = true →
   href_assigned b' = href_assigned b) ∧
  (on_login_or_public_view (pathname b) = false →
   href_assigned b' = "/login" :: href_assigned b).
Proof.
  intros H401. rewrite (exec_onRejected_guarded _ _ H401). cbn.
  split; [apply lookup_delete_eq |].
  split; intros ->; reflexivity.
Qed.

Lemma guarded_interceptor_on_401_witness :
  href_assigned (exec (onRejected PathGuarded unauthorized) on_public_form) = [] ∧
  href_assigned (exec (onRejected PathGuarded unauthorized) on_dashboard) = ["/login"].
Proof.
  split.
  - apply (guarded_interceptor_on_401 unauthorized on_public_form); reflexivity.
  - apply (guarded_interceptor_on_401 unauthorized on_dashboard); reflexivity.
Defined.

(** The revision without the path test: on every 401 the token is
    removed and [window.location.href] is set to "/login", wherever the
    browser is. *)
Lemma unguarded_interceptor_on_401 error b :
  is_unauthorized error = true →
  let b' := exec (onRejected Unguarded error) b in
  localStorage b' !! "authToken" = None ∧
  href_assigned b' = "/login" :: href_assigned b.
Proof.
  intros H401. rewrite (exec_onRejected_unguarded _ _ H401). cbn.
  split; [apply lookup_delete_eq | done].
Qed.

(** C7 at the failing input: a 401 that arrives while the browser shows
    the public form "/feedback/42", a public submission view, makes the
    revision without the path test remove the token and redirect to
    "/login" all the same. *)
Theorem unguarded_interceptor_redirects_public_view :
  is_unauthorized unauthorized = true ∧
  on_login_or_public_view (pathname on_public_form) = true ∧
  localStorage (exec (onRejected Unguarded unauthorized) on_public_form)
    !! "authToken" = None ∧
  href_assigned (exec (onRejected Unguarded unauthorized) on_public_form)
  = ["/login"].
Proof. repeat split. Qed.

End ApiFacts.

(** ** Properties of the public submission form *)

Section PublicFeedbackFormFacts.
Import PublicFeedbackForm.

Implicit Types (w : PageState) (q : Question) (f : FeedbackForm).

(** The test of the code and the three cases of the specification agree. *)
Lemma is_blank_unanswered (answer : option AnswerValue) :
  is_blank answer = true ↔ unanswered answer.
Proof.
  unfold unanswered. destruct answer as [[s | z | l] |]; cbn.
  - rewrite bool_decide_eq_true. split.
    + intros ->. right; by left.
    + intros [? | [? | ?]]; congruence.
  - split; [discriminate | intros [? | [? | ?]]; congruence].
  - rewrite bool_decide_eq_true. destruct l; cbn; split.
    + intros _. right; by right.
    + done.
    + discriminate.
    + intros [? | [? | ?]]; congruence.
  - split; [by left | done].
Qed.

Lemma validate_questions_true (ans : gmap Z AnswerValue) (qs : list Question) :
  validate_questions ans qs = true ↔
  Forall (λ q, is_required q = true → is_blank (ans !! id q) = false) qs.
Proof.
  induction qs as [| q qs IH]; cbn [validate_questions].
  - split; [constructor | done].
  - rewrite Forall_cons, <- IH.
    destruct (is_required q), (is_blank (ans !! id q)); cbn;
      intuition congruence.
Qed.

Lemma validate_questions_false (ans : gmap Z AnswerValue) (qs : list Question) :
  validate_questions ans qs = false ↔
  Exists (λ q, is_required q = true ∧ is_blank (ans !! id q) = true) qs.
Proof.
  induction qs as [| q qs IH]; cbn [validate_questions].
  - split; [discriminate | by intros ?%Exists_nil].
  - rewrite Exists_cons, <- IH.
    destruct (is_required q), (is_blank (ans !! id q)); cbn;
      intuition congruence.
Qed.

(** A refused submission: the default is prevented, the user is alerted,
    and nothing else happens. *)
Lemma exec_handleSubmit_refused {A} rev (reply : Settled A) w :
  validateForm w = false →
  exec (handleSubmit rev reply) w =
  {| formId := formId w; form := form w; answers := answers w;
     submitting := submitting w; error := error w; success := success w;
     effects := Alert "Please fill in all required fields."
                  :: PreventDefault :: effects w |}.
Proof.
  intros Hv. unfold handleSubmit. step_act. cbv [perform]. step_act.
  unfold validateForm in *. cbn [form answers]. by rewrite Hv.
Qed.

(** An accepted submission sends the request, whatever comes back. *)
Lemma submissions_handleSubmit_accepted {A} rev (reply : Settled A) w :
  validateForm w = true →
  submissions (exec (handleSubmit rev reply) w)
  = (formId w, submitData w) :: submissions w.
Proof.
  intros Hv. unfold handleSubmit. step_act. cbv [perform]. step_act.
  unfold validateForm in *. cbn [form answers]. rewrite Hv. cbn [negb].
  cbv [setSubmitting submitFeedback perform after_submit setError setSuccess].
  step_act.
  destruct reply as [a | e], rev; reflexivity.
Qed.

(** C8: with a form loaded, when some required question has an answer
    that is [undefined], the empty string or an empty array, [handleSubmit]
    sends no submission request (it alerts and returns); when every
    required question has an answer that is none of these, the request is
    sent, with the form id and the answers. *)
Theorem handleSubmit_validates_first {A} rev (reply : Settled A) w f :
  form w = Some f →
  let w' := exec (handleSubmit rev reply) w in
  ((∃ q, q ∈ questions f ∧ is_required q = true ∧
         unanswered (answers w !! id q)) →
   submissions w' = submissions w ∧
   effects w' = Alert "Please fill in all required fields."
                  :: PreventDefault :: effects w) ∧
  ((∀ q, q ∈ questions f → is_required q = true →
         ¬ unanswered (answers w !! id q)) →
   submissions w' = (formId w, submitData w) :: submissions w).
Proof.
  intros Hf. cbn zeta. split.
  - intros (q & Hq & Hreq & Hun).
    assert (Hv : validateForm w = false).
    { unfold validateForm. rewrite Hf. apply validate_questions_false.
      apply Exists_exists. exists q. by rewrite is_blank_unanswered. }
    by rewrite (exec_handleSubmit_refused _ _ _ Hv).
  - intros Hall.
    assert (Hv : validateForm w = true).
    { unfold validateForm. rewrite Hf. apply validate_questions_true.
      apply Forall_forall. intros q Hq Hreq.
      apply not_true_is_false. rewrite is_blank_unanswered. by apply Hall. }
    by apply submissions_handleSubmit_accepted.
Qed.

(** Ticking an option of the required checkbox question makes the sample
    form pass. *)
Example handleAnswerChange_then_valid :
  validateForm (loaded missing_topics) = false ∧
  validateForm (exec (handleAnswerChange 2 (AArray ["Price"]))
                     (loaded missing_topics)) = true.
Proof. split; reflexivity. Qed.

Lemma handleSubmit_validates_first_witness :
  submissions (exec (handleSubmit ShowsThanks (Fulfilled tt))
                    (loaded missing_topics)) = [] ∧
  submissions (exec (handleSubmit ShowsThanks (Fulfilled tt))
                    (loaded all_answered))
  = [("42", submitData (loaded all_answered))].
Proof.
  split.
  - apply (handleSubmit_validates_first ShowsThanks (Fulfilled tt)
             (loaded missing_topics) sample_form eq_refl).
    exists q_topics. split; [| split].
    + apply list_elem_of_further, list_elem_of_here.
    + reflexivity.
    + right; right. reflexivity.
  - apply (handleSubmit_validates_first ShowsThanks (Fulfilled tt)
             (loaded all_answered) sample_form eq_refl).
    intros q Hq Hreq Hu. apply is_blank_unanswered in Hu.
    repeat (apply elem_of_cons in Hq as [-> | Hq]);
      [discriminate Hu | discriminate Hu | discriminate Hreq
      | by apply elem_of_nil in Hq].
Defined.

End PublicFeedbackFormFacts.

(** ** The counter against the list *)

Section NotificationSyncFacts.
Import NotificationContext NotificationSync.

Implicit Types (w : World) (n : Notification) (i : Z) (l : list Notification).

Lemma run_app (evs1 evs2 : list Event) w :
  run (evs1 ++ evs2) w = run evs2 (run evs1 w).
Proof. revert w. induction evs1 as [| ev evs1 IH]; intros w; [done | apply IH]. Qed.

Lemma unread_entries_cons n l :
  unread_entries (n :: l)
  = (if is_read n then 0 else 1) + unread_entries l.
Proof.
  unfold unread_entries. rewrite filter_cons.
  destruct (is_read n); case_decide; try done; cbn [length]; lia.
Qed.

Lemma unread_matches_cons i n l :
  unread_matches i (n :: l)
  = (if is_read n then 0 else if bool_decide (id n = i) then 1 else 0)
    + unread_matches i l.
Proof.
  unfold unread_matches. rewrite filter_cons.
  destruct (is_read n), (decide (id n = i)) as [Hi | Hi];
    rewrite ?(bool_decide_eq_true_2 _ Hi), ?(bool_decide_eq_false_2 _ Hi);
    case_decide as Hd; cbn [length]; try lia; exfalso; intuition congruence.
Qed.

Lemma unread_others_cons i n l :
  unread_others i (n :: l)
  = (if is_read n then 0 else if bool_decide (id n = i) then 0 else 1)
    + unread_others i l.
Proof.
  unfold unread_others. rewrite filter_cons.
  destruct (is_read n), (decide (id n = i)) as [Hi | Hi];
    rewrite ?(bool_decide_eq_true_2 _ Hi), ?(bool_decide_eq_false_2 _ Hi);
    case_decide as Hd; cbn [length]; try lia; exfalso; intuition congruence.
Qed.

(** The unread entries are those with the id and those without. *)
Lemma unread_entries_split i l :
  unread_entries l = unread_matches i l + unread_others i l.
Proof.
  induction l as [| n l IH]; [done |].
  rewrite unread_entries_cons, unread_matches_cons, unread_others_cons, IH.
  destruct (is_read n), (bool_decide (id n = i)); lia.
Qed.

Lemma unread_matches_nonneg i l : 0 ≤ unread_matches i l.
Proof. unfold unread_matches. lia. Qed.

Lemma unread_entries_mark i l :
  unread_entries
    (map (λ n, if bool_decide (id n = i) then with_is_read true n else n) l)
  = unread_others i l.
Proof.
  induction l as [| n l IH]; [done |].
  cbn [map]. rewrite unread_entries_cons, unread_others_cons, IH.
  case_bool_decide; [cbn; by destruct (is_read n) | done].
Qed.

Lemma unread_matches_mark i l :
  unread_matches i
    (map (λ n, if bool_decide (id n = i) then with_is_read true n else n) l)
  = 0.
Proof.
  induction l as [| n l IH]; [done |].
  cbn [map]. rewrite unread_matches_cons, IH.
  destruct (decide (id n = i)) as [Hi | Hi].
  - by rewrite (bool_decide_eq_true_2 _ Hi).
  - rewrite (bool_decide_eq_false_2 _ Hi).
    destruct (is_read n); [done |]. by rewrite bool_decide_eq_false_2.
Qed.

(** X1: A fulfilled [markAsRead i] reads every entry that carries the id [i],
    however many there are: the unread entries left are exactly the unread
    entries with another id, while the counter goes down by one at most. *)
Theorem markAsRead_reads_every_match w i :
  let w' := exec (markAsRead (Fulfilled tt) i) w in
  unread_entries (notifications w') = unread_others i (notifications w) ∧
  unread_entries (notifications w')
  = unread_entries (notifications w) - unread_matches i (notifications w) ∧
  unread_matches i (notifications w') = 0 ∧
  unreadCount w - 1 ≤ unreadCount w'.
Proof.
  rewrite exec_markAsRead_fulfilled. cbn.
  pose proof (unread_entries_split i (notifications w)) as Hsplit.
  pose proof (unread_entries_mark i (notifications w)) as Hmark.
  pose proof (unread_matches_mark i (notifications w)) as Hnone.
  repeat split; try lia; done.
Qed.

Lemma unread_others_nonneg i l : 0 ≤ unread_others i l.
Proof. unfold unread_others. lia. Qed.

(** X2: Starting with a counter that agrees with the list, a fulfilled
    [markAsRead i] leaves them in agreement exactly when one unread entry
    carried the id, or when nothing was unread at all; an id that no unread
    entry carries, or that several carry, makes them drift apart. *)
Theorem markAsRead_keeps_sync_iff w i :
  in_sync w →
  in_sync (exec (markAsRead (Fulfilled tt) i) w) ↔
  unread_matches i (notifications w) = 1 ∨
  unread_entries (notifications w) = 0.
Proof.
  unfold in_sync. intros Hs. rewrite exec_markAsRead_fulfilled. cbn.
  rewrite unread_entries_mark, Hs.
  pose proof (unread_entries_split i (notifications w)).
  pose proof (unread_matches_nonneg i (notifications w)).
  pose proof (unread_others_nonneg i (notifications w)).
  lia.
Qed.

Lemma markAsRead_keeps_sync_iff_witness :
  in_sync (exec (markAsRead (Fulfilled tt) 1) two_unread) ∧
  ¬ in_sync (exec (markAsRead (Fulfilled tt) 7) two_unread).
Proof.
  split.
  - apply (markAsRead_keeps_sync_iff two_unread 1); [reflexivity |].
    left. reflexivity.
  - intros Hs. apply (markAsRead_keeps_sync_iff two_unread 7) in Hs;
      [| reflexivity].
    destruct Hs as [Hs | Hs]; discriminate Hs.
Defined.

Lemma mark_idempotent i l :
  let mark := λ n, if bool_decide (id n = i) then with_is_read true n else n in
  map mark (map mark l) = map mark l.
Proof.
  cbn zeta. rewrite map_map. apply map_ext. intros n.
  destruct (decide (id n = i)) as [Hi | Hi].
  - rewrite (bool_decide_eq_true_2 _ Hi). cbn [id with_is_read].
    by rewrite (bool_decide_eq_true_2 _ Hi).
  - rewrite (bool_decide_eq_false_2 _ Hi).
    by rewrite (bool_decide_eq_false_2 _ Hi).
Qed.

(** X3: Nothing remembers that an id has been marked already: a second
    fulfilled [markAsRead] on the same id leaves the list as the first one
    made it, sends the request and the notice again, and takes one more off
    the counter. *)
Theorem markAsRead_again w i :
  let w1 := exec (markAsRead (Fulfilled tt) i) w in
  let w2 := exec (markAsRead (Fulfilled tt) i) w1 in
  notifications w2 = notifications w1 ∧
  unreadCount w2 = Z.max 0 (unreadCount w - 2) ∧
  requests w2 = PostMarkAsRead i :: PostMarkAsRead i :: requests w ∧
  ws_sent w2
  = WsMarkNotificationAsRead i :: WsMarkNotificationAsRead i :: ws_sent w.
Proof.
  cbn zeta. rewrite !exec_markAsRead_fulfilled. cbn.
  split; [apply mark_idempotent | split; [lia | done]].
Qed.

(** *** Along a history *)

Lemma handle_local_bounded ev w :
  is_local ev = true →
  unreadCount w ≤ Z.of_nat (length (notifications w)) →
  unreadCount (exec (handle ev) w)
  ≤ Z.of_nat (length (notifications (exec (handle ev) w))).
Proof.
  intros Hloc Hw.
  destruct ev as [| |[[]|]|[[]|]| | |]; cbn [handle]; try discriminate Hloc.
  - rewrite exec_addNotification. cbn [unreadCount notifications length]. lia.
  - rewrite exec_markAsRead_fulfilled. cbn [unreadCount notifications].
    rewrite length_map. lia.
  - by rewrite exec_markAsRead_rejected.
  - rewrite exec_markAllAsRead_fulfilled. cbn [unreadCount notifications]. lia.
  - by rewrite exec_markAllAsRead_rejected.
  - unfold on_notification. rewrite exec_addNotification.
    cbn [unreadCount notifications length]. lia.
  - unfold on_new_response. rewrite exec_addNotification.
    cbn [unreadCount notifications length]. lia.
Qed.

Lemma run_local_bounded evs w :
  forallb is_local evs = true →
  unreadCount w ≤ Z.of_nat (length (notifications w)) →
  unreadCount (run evs w) ≤ Z.of_nat (length (notifications (run evs w))).
Proof.
  revert w. induction evs as [| ev evs IH]; intros w Hloc Hw; [done |].
  cbn in Hloc. apply andb_prop in Hloc as [Hev Hevs].
  cbn [run]. apply IH; [done |]. by apply handle_local_bounded.
Qed.

(** X4: From the initial state, along any history without a snapshot fetch
    and without a "notification_count" message, the counter never exceeds
    the number of entries in the list. *)
Theorem unreadCount_le_length (evs : list Event) :
  forallb is_local evs = true →
  unreadCount (run evs initial)
  ≤ Z.of_nat (length (notifications (run evs initial))).
Proof. intros Hloc. by apply run_local_bounded. Qed.

Lemma unreadCount_le_length_witness :
  unreadCount (run sample_history initial)
  ≤ Z.of_nat (length (notifications (run sample_history initial))).
Proof. apply (unreadCount_le_length sample_history). reflexivity. Defined.

(** X8: A fulfilled snapshot fetch replaces the list and the counter by what
    the server sent, whatever happened before it resolved: entries pushed
    in the meantime are not kept. *)
Theorem loadNotifications_overwrites (evs : list Event) w l c :
  let w' := run (evs ++ [EvLoadNotifications (Fulfilled l) (Fulfilled c)]) w in
  notifications w' = l ∧ unreadCount w' = c ∧ loading w' = false.
Proof.
  cbn zeta. rewrite run_app. cbn [run handle].
  by rewrite exec_loadNotifications_fulfilled.
Qed.

Lemma aged_refl n : aged n n.
Proof. by repeat split. Qed.

Lemma aged_trans n1 n2 n3 : aged n1 n2 → aged n2 n3 → aged n1 n3.
Proof.
  unfold aged. intros (-> & -> & -> & -> & -> & -> & H12) (? & ? & ? & ? & ? & ? & H23).
  repeat split; auto.
Qed.

Lemma aged_with_is_read n : aged n (with_is_read true n).
Proof. by repeat split. Qed.

Lemma lookup_reverse_cons l n0 (k : nat) n :
  reverse l !! k = Some n → reverse (n0 :: l) !! k = Some n.
Proof. intros Hk. rewrite reverse_cons. by apply lookup_app_l_Some. Qed.

Lemma lookup_reverse_fmap (f : Notification → Notification) l (k : nat) n :
  reverse l !! k = Some n → reverse (map f l) !! k = Some (f n).
Proof.
  intros Hk. change (map f l) with (f <$> l).
  by rewrite <- fmap_reverse, list_lookup_fmap, Hk.
Qed.

Lemma keeps_list_load r1 r2 :
  keeps_list (EvLoadNotifications r1 r2) = true →
  is_fulfilled r1 = false ∨ is_fulfilled r2 = false.
Proof. destruct r1, r2; cbn; auto; discriminate. Qed.

Lemma handle_keeps_list ev w (k : nat) n :
  keeps_list ev = true →
  reverse (notifications w) !! k = Some n →
  ∃ n', reverse (notifications (exec (handle ev) w)) !! k = Some n' ∧ aged n n'.
Proof.
  intros Hev Hk.
  destruct ev as [r1 r2 | n0 | [[] | e] i | [[] | e] | clk d | d | clk d];
    cbn [handle].
  - apply keeps_list_load in Hev.
    destruct (exec_loadNotifications_rejected r1 r2 w Hev) as [e ->].
    exists n. split; [done | apply aged_refl].
  - rewrite exec_addNotification. exists n.
    split; [by apply lookup_reverse_cons | apply aged_refl].
  - rewrite exec_markAsRead_fulfilled. cbn [notifications].
    eexists. split; [by apply lookup_reverse_fmap |].
    case_bool_decide; [apply aged_with_is_read | apply aged_refl].
  - rewrite exec_markAsRead_rejected. exists n. split; [done | apply aged_refl].
  - rewrite exec_markAllAsRead_fulfilled. cbn [notifications].
    eexists. split; [by apply lookup_reverse_fmap | apply aged_with_is_read].
  - rewrite exec_markAllAsRead_rejected. exists n. split; [done | apply aged_refl].
  - unfold on_notification. rewrite exec_addNotification. exists n.
    split; [by apply lookup_reverse_cons | apply aged_refl].
  - exists n. split; [done | apply aged_refl].
  - unfold on_new_response. rewrite exec_addNotification. exists n.
    split; [by apply lookup_reverse_cons | apply aged_refl].
Qed.

(** X5: Along any history in which no snapshot fetch is fulfilled, an entry
    of the list is never removed nor moved: counted from the oldest end it
    stays at its place with all its fields, and its read flag, once set,
    stays set. *)
Theorem entries_persist (evs : list Event) w (k : nat) n :
  forallb keeps_list evs = true →
  reverse (notifications w) !! k = Some n →
  ∃ n', reverse (notifications (run evs w)) !! k = Some n' ∧ aged n n'.
Proof.
  revert w n. induction evs as [| ev evs IH]; intros w n Hevs Hk.
  - exists n. split; [done | apply aged_refl].
  - cbn in Hevs. apply andb_prop in Hevs as [Hev Hevs]. cbn [run].
    destruct (handle_keeps_list ev w k n Hev Hk) as (n1 & Hk1 & H1).
    destruct (IH _ n1 Hevs Hk1) as (n2 & Hk2 & H2).
    exists n2. split; [done | by eapply aged_trans].
Qed.

Lemma entries_persist_witness :
  ∃ n', reverse (notifications (run sample_history one_unread)) !! 0%nat
        = Some n' ∧
        aged (sample 1 false) n'.
Proof.
  apply (entries_persist sample_history one_unread 0 (sample 1 false));
    reflexivity.
Defined.

Lemma unread_entries_all_read l :
  unread_entries (map (with_is_read true) l) = 0.
Proof.
  induction l as [| n l IH]; [done |].
  cbn [map]. by rewrite unread_entries_cons, IH.
Qed.

Lemma handle_sync_safe ev w :
  sync_safe ev = true →
  in_sync w ∨ resyncs ev = true →
  in_sync (exec (handle ev) w).
Proof.
  unfold in_sync. intros Hev Hs.
  destruct ev as [r1 r2 | n0 | [[] | e] i | [[] | e] | clk d | d | clk d];
    cbn [handle]; try discriminate Hev.
  - destruct Hs as [Hs | ?]; [| done].
    apply keeps_list_load in Hev.
    by destruct (exec_loadNotifications_rejected r1 r2 w Hev) as [e ->].
  - destruct Hs as [Hs | ?]; [| done].
    rewrite exec_addNotification. cbn [unreadCount notifications].
    rewrite unread_entries_cons. cbn in Hev.
    destruct (is_read n0); [done | lia].
  - destruct Hs as [Hs | ?]; [| done]. by rewrite exec_markAsRead_rejected.
  - rewrite exec_markAllAsRead_fulfilled. cbn [unreadCount notifications].
    by rewrite unread_entries_all_read.
  - destruct Hs as [Hs | ?]; [| done]. by rewrite exec_markAllAsRead_rejected.
  - destruct Hs as [Hs | ?]; [| done].
    unfold on_notification. rewrite exec_addNotification.
    cbn [unreadCount notifications]. rewrite unread_entries_cons. cbn. lia.
  - destruct Hs as [Hs | ?]; [| done].
    unfold on_new_response. rewrite exec_addNotification.
    cbn [unreadCount notifications]. rewrite unread_entries_cons. cbn. lia.
Qed.

(** X6: New unread entries (pushed or added), [markAllAsRead] and rejected
    calls keep a counter that agrees with the list in agreement, and a
    fulfilled [markAllAsRead] among them brings a counter that had drifted
    back to the list. *)
Theorem sync_safe_history (evs : list Event) w :
  forallb sync_safe evs = true →
  in_sync w ∨ existsb resyncs evs = true →
  in_sync (run evs w).
Proof.
  revert w. induction evs as [| ev evs IH]; intros w Hevs Hs.
  - by destruct Hs.
  - cbn in Hevs. apply andb_prop in Hevs as [Hev Hevs]. cbn [run].
    apply IH; [done |].
    cbn [existsb] in Hs. rewrite orb_true_iff in Hs.
    destruct Hs as [Hs | [Hr | Hr]].
    + left. apply handle_sync_safe; auto.
    + left. apply handle_sync_safe; auto.
    + by right.
Qed.

Lemma sync_safe_history_witness :
  ¬ in_sync one_read ∧ in_sync (run resync_history one_read).
Proof.
  split; [discriminate |].
  apply (sync_safe_history resync_history one_read); [reflexivity |].
  right. reflexivity.
Defined.

(** X7: [addNotification] counts an entry that is read already: the counter
    goes up while the number of unread entries stays. *)
Theorem addNotification_counts_read_entry w n :
  is_read n = true →
  let w' := exec (addNotification n) w in
  unreadCount w' = unreadCount w + 1 ∧
  unread_entries (notifications w') = unread_entries (notifications w) ∧
  (in_sync w → ¬ in_sync w').
Proof.
  intros Hr. rewrite exec_addNotification. unfold in_sync.
  cbn [unreadCount notifications]. rewrite unread_entries_cons, Hr.
  repeat split; lia.
Qed.

Lemma addNotification_counts_read_entry_witness :
  unreadCount (exec (addNotification (sample 5 true)) two_unread) = 3 ∧
  unread_entries (notifications (exec (addNotification (sample 5 true)) two_unread))
  = 2.
Proof.
  destruct (addNotification_counts_read_entry two_unread (sample 5 true) eq_refl)
    as (Hc & Hu & _).
  split; [exact Hc | exact Hu].
Defined.

End NotificationSyncFacts.

(** ** Properties of the two interceptors together *)

Section ApiRequestFacts.
Import Api ApiRequest.

Implicit Types (b : Browser) (config : RequestConfig) (error : JsError).

Lemma onRequest_run config b :
  onRequest config b =
  (Fulfilled
     match localStorage b !! "authToken" with
     | Some t =>
         if bool_decide (t = EmptyString) then config
         else {| url := url config;
                 headers := <["Authorization" := "Token " +:+ t]>
                              (headers config) |}
     | None => config
     end, b).
Proof.
  unfold onRequest, localStorage_getItem. step_act.
  destruct (localStorage b !! "authToken") as [t |]; [| done].
  by destruct (bool_decide (t = EmptyString)).
Qed.

(** X9: With a token in the store that is not the empty string, the request
    leaves with the header [Authorization: Token <token>]; its url and its
    other headers are those it came with, and the store is only read. *)
Theorem onRequest_attaches_token config b (t : string) :
  localStorage b !! "authToken" = Some t →
  t ≠ EmptyString →
  ∃ config',
    outcome (onRequest config) b = Fulfilled config' ∧
    headers config' !! "Authorization" = Some ("Token " +:+ t) ∧
    (∀ h : string, h ≠ "Authorization" →
                   headers config' !! h = headers config !! h) ∧
    url config' = url config ∧
    exec (onRequest config) b = b.
Proof.
  intros Ht Hne. unfold outcome, exec. rewrite onRequest_run, Ht.
  rewrite (bool_decide_eq_false_2 _ Hne). cbn [fst snd].
  eexists. split; [reflexivity |]. cbn [headers url].
  split; [apply lookup_insert_eq |].
  split; [| done]. intros h Hh. by apply lookup_insert_ne.
Qed.

Lemma onRequest_attaches_token_witness :
  ∃ config',
    outcome (onRequest get_forms) on_dashboard = Fulfilled config' ∧
    headers config' !! "Authorization" = Some "Token stale".
Proof.
  destruct (onRequest_attaches_token get_forms on_dashboard "stale")
    as (config' & Ho & Ha & _); [reflexivity | discriminate |].
  exists config'. split; [exact Ho | exact Ha].
Defined.

(** X10: Once a 401 has gone through the response interceptor, of either
    revision and on any path, the next request leaves as it came: no
    [Authorization] header is added to it. *)
Theorem request_after_401_unauthenticated rev error b config :
  is_unauthorized error = true →
  outcome (onRequest config) (exec (onRejected rev error) b) = Fulfilled config.
Proof.
  intros H401. unfold outcome. rewrite onRequest_run. cbn [fst].
  destruct rev.
  - rewrite (exec_onRejected_unguarded _ _ H401). cbn [localStorage].
    by rewrite lookup_delete_eq.
  - rewrite (exec_onRejected_guarded _ _ H401). cbn [localStorage].
    by rewrite lookup_delete_eq.
Qed.

Lemma request_after_401_unauthenticated_witness :
  outcome (onRequest get_forms)
          (exec (onRejected PathGuarded unauthorized) on_public_form)
  = Fulfilled get_forms.
Proof.
  apply (request_after_401_unauthenticated PathGuarded unauthorized
           on_public_form get_forms).
  reflexivity.
Defined.

(** X11: The response interceptor never swallows a failure: in both revisions
    the caller gets the very rejection that came in; and a failure that is
    not a 401 touches neither the store nor the location. *)
Theorem onRejected_hands_error_on rev error b :
  outcome (onRejected rev error) b = Rejected error ∧
  (is_unauthorized error = false → exec (onRejected rev error) b = b).
Proof.
  split; [apply outcome_onRejected | apply exec_onRejected_other].
Qed.

Lemma onRejected_hands_error_on_witness :
  outcome (onRejected Unguarded server_error) on_dashboard
  = Rejected server_error ∧
  exec (onRejected Unguarded server_error) on_dashboard = on_dashboard.
Proof.
  destruct (onRejected_hands_error_on Unguarded server_error on_dashboard)
    as [Ho Hb].
  split; [exact Ho | apply Hb; reflexivity].
Defined.

(** X12: The revision that reads the path decides by substring: on a 401 it
    leaves the location alone exactly when "/login" or "/feedback/" occurs
    somewhere in the current path. *)
Theorem guarded_stays_iff_substring error b :
  is_unauthorized error = true →
  href_assigned (exec (onRejected PathGuarded error) b) = href_assigned b ↔
  (∃ pre post : string, pathname b = pre +:+ "/login" +:+ post) ∨
  (∃ pre post : string, pathname b = pre +:+ "/feedback/" +:+ post).
Proof.
  intros H401. rewrite (exec_onRejected_guarded _ _ H401). cbn [href_assigned].
  rewrite <- !includes_spec, <- orb_true_iff.
  fold (on_login_or_public_view (pathname b)).
  destruct (on_login_or_public_view (pathname b)); split; try done.
  intros Heq. apply (f_equal length) in Heq. cbn in Heq. lia.
Qed.

Lemma guarded_stays_iff_substring_witness :
  href_assigned (exec (onRejected PathGuarded unauthorized) on_public_form)
  = href_assigned on_public_form.
Proof.
  apply (guarded_stays_iff_substring unauthorized on_public_form);
    [reflexivity |].
  right. exists EmptyString, "42". reflexivity.
Defined.

End ApiRequestFacts.

(** ** More on the public submission form *)

Section PublicFeedbackFormPageFacts.
Import PublicFeedbackForm PublicFeedbackFormPage.

Implicit Types (w : PageState) (p : Page) (q : Question) (f : FeedbackForm).
Implicit Types (ans : gmap Z AnswerValue).

Local Instance key_le_total : Total key_le.
Proof. intros a b. unfold key_le. lia. Qed.

Local Instance key_le_trans : Transitive key_le.
Proof. intros a b c. unfold key_le. lia. Qed.



Lemma validate_questions_agree ans1 ans2 (qs : list Question) :
  (∀ q, q ∈ qs → is_required q = true → ans1 !! id q = ans2 !! id q) →
  validate_questions ans1 qs = validate_questions ans2 qs.
Proof.
  induction qs as [| q qs IH]; intros Hagree; [done |].
  cbn [validate_questions].
  rewrite IH by (intros q' Hq'; apply Hagree; by apply list_elem_of_further).
  destruct (is_required q) eqn:Hreq; [| done].
  by rewrite (Hagree q (list_elem_of_here _ _) Hreq).
Qed.

(** X14: Only the answers of required questions count: an answer given under
    an id that is not the id of a required question of the form (an
    optional question, or no question at all) changes nothing to what
    [validateForm] says. *)
Theorem handleAnswerChange_elsewhere w f (questionId : Z) (value : AnswerValue) :
  form w = Some f →
  (∀ q, q ∈ questions f → is_required q = true → id q ≠ questionId) →
  validateForm (exec (handleAnswerChange questionId value) w) = validateForm w.
Proof.
  intros Hf Hother. unfold validateForm, handleAnswerChange, setAnswers.
  step_act. cbn [form answers]. rewrite Hf.
  apply validate_questions_agree. intros q Hq Hreq.
  apply lookup_insert_ne. intros Heq. by apply (Hother q Hq Hreq).
Qed.

Lemma handleAnswerChange_elsewhere_witness :
  validateForm (exec (handleAnswerChange 3 (AString EmptyString))
                     (loaded all_answered))
  = validateForm (loaded all_answered).
Proof.
  apply (handleAnswerChange_elsewhere (loaded all_answered) sample_form 3
           (AString EmptyString) eq_refl).
  intros q Hq Hreq.
  repeat (apply elem_of_cons in Hq as [-> | Hq]);
    [discriminate | discriminate | discriminate Hreq
    | by apply elem_of_nil in Hq].
Defined.

Lemma exec_checkbox_onChange (questionId : Z) (option : string) checked w :
  exec (checkbox_onChange questionId option checked) w =
  {| formId := formId w; form := form w;
     answers :=
       <[questionId :=
           AArray (if checked then currentValues w questionId ++ [option]
                   else filter (λ v, v ≠ option) (currentValues w questionId))]>
         (answers w);
     submitting := submitting w; error := error w; success := success w;
     effects := effects w |}.
Proof. reflexivity. Qed.

Lemma currentValues_checkbox_onChange (questionId : Z) (option : string) checked w :
  currentValues (exec (checkbox_onChange questionId option checked) w) questionId
  = if checked then currentValues w questionId ++ [option]
    else filter (λ v, v ≠ option) (currentValues w questionId).
Proof.
  rewrite exec_checkbox_onChange. unfold currentValues at 1. cbn [answers].
  by rewrite lookup_insert_eq.
Qed.

Lemma filter_ne_app_absent (option : string) (l : list string) :
  option ∉ l → filter (λ v, v ≠ option) (l ++ [option]) = l.
Proof.
  intros Hnot. rewrite filter_app, filter_cons, decide_False by (by intros ?).
  rewrite filter_nil, app_nil_r.
  induction l as [| x l IH]; [done |].
  apply not_elem_of_cons in Hnot as [Hx Hl].
  rewrite filter_cons, decide_True by done. by rewrite IH.
Qed.

(** X15: Ticking an option that is not ticked and unticking it again gives back
    the ticked options as they were; unticking removes every occurrence of
    the option and keeps the others in their order, and the answers of the
    other questions are never touched. *)
Theorem checkbox_tick_untick (questionId : Z) (option : string) w :
  option ∉ currentValues w questionId →
  let w1 := exec (checkbox_onChange questionId option true) w in
  let w2 := exec (checkbox_onChange questionId option false) w1 in
  currentValues w1 questionId = currentValues w questionId ++ [option] ∧
  currentValues w2 questionId = currentValues w questionId ∧
  (∀ k : Z, k ≠ questionId → answers w2 !! k = answers w !! k).
Proof.
  intros Hnot. cbn zeta.
  rewrite !currentValues_checkbox_onChange.
  split; [done |]. split; [by apply filter_ne_app_absent |].
  intros k Hk. rewrite !exec_checkbox_onChange. cbn [answers].
  by rewrite !lookup_insert_ne.
Qed.

Lemma checkbox_tick_untick_witness :
  currentValues
    (exec (checkbox_onChange 2 "Quality" false)
       (exec (checkbox_onChange 2 "Quality" true) (loaded only_price))) 2
  = ["Price"].
Proof.
  apply (checkbox_tick_untick 2 "Quality" (loaded only_price)).
  intros Hin. apply elem_of_cons in Hin as [Hin | Hin]; [discriminate Hin |].
  by apply elem_of_nil in Hin.
Defined.

Lemma filter_ne_all_equal (option : string) (l : list string) :
  Forall (λ v, v = option) l → filter (λ v, v ≠ option) l = [].
Proof.
  induction 1 as [| x l Hx _ IH]; [done |].
  by rewrite filter_cons, decide_False by (by intros ?).
Qed.

(** X16: Unticking the only ticked option of a required checkbox question
    leaves an empty array, which counts as no answer: [validateForm] fails
    and [handleSubmit] sends nothing. *)
Theorem untick_last_blocks_submit {A} rev (reply : Settled A) w f q (option : string) :
  form w = Some f →
  q ∈ questions f →
  is_required q = true →
  Forall (λ v, v = option) (currentValues w (id q)) →
  let w' := exec (checkbox_onChange (id q) option false) w in
  answers w' !! id q = Some (AArray []) ∧
  validateForm w' = false ∧
  submissions (exec (handleSubmit rev reply) w') = submissions w.
Proof.
  intros Hf Hq Hreq Hall. cbn zeta.
  assert (Hans : answers (exec (checkbox_onChange (id q) option false) w)
                 !! id q = Some (AArray [])).
  { rewrite exec_checkbox_onChange. cbn [answers].
    by rewrite lookup_insert_eq, filter_ne_all_equal. }
  assert (Hv : validateForm (exec (checkbox_onChange (id q) option false) w)
               = false).
  { unfold validateForm. rewrite exec_checkbox_onChange at 1. cbn [form].
    rewrite Hf. apply validate_questions_false, Exists_exists.
    exists q. by rewrite Hans. }
  split; [done |]. split; [done |].
  by rewrite (exec_handleSubmit_refused _ _ _ Hv).
Qed.

Lemma untick_last_blocks_submit_witness :
  submissions
    (exec (handleSubmit ShowsThanks (Fulfilled tt))
       (exec (checkbox_onChange 2 "Price" false) (loaded only_price)))
  = [].
Proof.
  apply (untick_last_blocks_submit ShowsThanks (Fulfilled tt)
           (loaded only_price) sample_form q_topics "Price" eq_refl).
  - apply list_elem_of_further, list_elem_of_here.
  - reflexivity.
  - repeat constructor.
Defined.

(** *** How a submission ends *)

Lemma exec_handleSubmit_rejected {A} rev (e : JsError) w :
  validateForm w = true →
  exec (handleSubmit (A:=A) rev (Rejected e)) w =
  {| formId := formId w; form := form w; answers := answers w;
     submitting := false;
     error := message_or e "Failed to submit feedback. Please try again.";
     success := success w;
     effects := ConsoleError "Failed to submit feedback:" e
                  :: SubmitFeedback (formId w) (submitData w)
                  :: PreventDefault :: effects w |}.
Proof.
  intros Hv. unfold handleSubmit. step_act. cbv [perform]. step_act.
  unfold validateForm in *. cbn [form answers]. rewrite Hv. cbn [negb].
  cbv [setSubmitting submitFeedback perform after_submit setError setSuccess].
  step_act. reflexivity.
Qed.

(** X17: A submission that the server rejects is logged and shown (the
    server's message, or a fixed text when there is none); the thank-you
    state is not entered, nothing is navigated to, the answers stay as
    typed and the submit button is released. *)
Theorem handleSubmit_rejected_keeps_answers {A} rev (e : JsError) w :
  validateForm w = true →
  let w' := exec (handleSubmit (A:=A) rev (Rejected e)) w in
  answers w' = answers w ∧
  submitting w' = false ∧
  success w' = success w ∧
  error w' = message_or e "Failed to submit feedback. Please try again." ∧
  (∀ path, Navigate path ∈ effects w' → Navigate path ∈ effects w) ∧
  ConsoleError "Failed to submit feedback:" e ∈ effects w'.
Proof.
  intros Hv. cbn zeta. rewrite (exec_handleSubmit_rejected _ _ _ Hv).
  cbn [answers submitting success error effects].
  repeat split; try done.
  - intros path Hin.
    repeat (apply elem_of_cons in Hin as [Hin | Hin]; [discriminate Hin |]).
    done.
  - apply list_elem_of_here.
Qed.

Lemma handleSubmit_rejected_keeps_answers_witness :
  answers (exec (handleSubmit (A:=unit) Navigates
                   (Rejected NotificationContext.network_error))
                (loaded all_answered))
  = all_answered ∧
  error (exec (handleSubmit (A:=unit) Navigates
                 (Rejected NotificationContext.network_error))
              (loaded all_answered))
  = "Failed to submit feedback. Please try again.".
Proof.
  destruct (handleSubmit_rejected_keeps_answers (A:=unit) Navigates
              NotificationContext.network_error (loaded all_answered) eq_refl)
    as (Ha & _ & _ & He & _).
  split; [exact Ha | exact He].
Defined.

(** *** Loading the form *)


Lemma exec_loadForm_fulfilled f p :
  exec (loadForm (Fulfilled f)) p =
  {| loading := false;
     fetched := formId (state p) :: fetched p;
     state := {| formId := formId (state p); form := Some f;
                 answers := answers (state p);
                 submitting := submitting (state p);
                 error := error (state p);
                 success := success (state p);
                 effects := effects (state p) |} |}.
Proof. reflexivity. Qed.



(** Without a form id in the route nothing is fetched, and the page keeps
    showing that it is loading. *)
Theorem onMount_without_formId reply p :
  formId (state p) = EmptyString →
  exec (onMount reply) p = p.
Proof.
  intros Hid. unfold onMount. step_act. by rewrite Hid.
Qed.

Lemma onMount_without_formId_witness :
  loading (exec (onMount (Fulfilled sample_form)) (mounted EmptyString)) = true ∧
  fetched (exec (onMount (Fulfilled sample_form)) (mounted EmptyString)) = [].
Proof.
  rewrite (onMount_without_formId (Fulfilled sample_form) (mounted EmptyString)
             eq_refl).
  split; reflexivity.
Defined.

End PublicFeedbackFormPageFacts.

(** ** Properties of the question editor *)

Section FormEditorFacts.
Import FormEditor.

Implicit Types (s : Editor) (q : CreateQuestionData).
Implicit Types (qs : list CreateQuestionData) (index : nat).

(** *** Filtering by place *)

Lemma filter_other_places {A} (k m : nat) (l : list A) :
  (m < k)%nat →
  (filter (λ iq, iq.1 ≠ m) (imap (λ i x, ((k + i)%nat, x)) l)).*2 = l.
Proof.
  revert k. induction l as [| x l IH]; intros k Hm; [done |].
  rewrite imap_cons, filter_cons, decide_True by (cbn; lia).
  cbn [fmap list_fmap snd]. f_equal.
  rewrite <- (IH (S k)) at 2 by lia.
  do 2 f_equal. apply imap_ext. intros i y _. cbn. f_equal. lia.
Qed.

Lemma filter_place_delete {A} (k index : nat) (l : list A) :
  (filter (λ iq, iq.1 ≠ (k + index)%nat) (imap (λ i x, ((k + i)%nat, x)) l)).*2
  = delete index l.
Proof.
  revert k index. induction l as [| x l IH]; intros k index; [done |].
  rewrite imap_cons. destruct index as [| index].
  - rewrite filter_cons, decide_False by (cbn; lia).
    change (delete 0%nat (x :: l)) with l.
    rewrite <- (filter_other_places (S k) (k + 0) l) at 2 by lia.
    do 2 f_equal. apply imap_ext. intros i y _. cbn. f_equal. lia.
  - rewrite filter_cons, decide_True by (cbn; lia).
    change (delete (S index) (x :: l)) with (x :: delete index l).
    cbn [fmap list_fmap snd]. f_equal.
    rewrite <- (IH (S k) index).
    f_equal. replace (k + S index)%nat with (S k + index)%nat by lia.
    f_equal. apply imap_ext. intros i y _. cbn. f_equal. lia.
Qed.

(** Filtering out one place is deleting at that place. *)
Lemma without_index_delete {A} index (l : list A) :
  without_index index l = delete index l.
Proof.
  unfold without_index. rewrite <- (filter_place_delete 0 index l).
  done.
Qed.

(** *** Renumbering *)

Lemma lookup_renumber qs (i : nat) :
  renumber qs !! i = with_order i <$> qs !! i.
Proof. apply list_lookup_imap. Qed.


Lemma well_ordered_renumber qs : well_ordered (renumber qs).
Proof.
  intros i q. rewrite lookup_renumber.
  destruct (qs !! i); [| done]. by intros [= <-].
Qed.

Lemma content_renumber qs : content <$> renumber qs = content <$> qs.
Proof.
  apply list_eq. intros i. rewrite !list_lookup_fmap, lookup_renumber.
  by destruct (qs !! i).
Qed.

Lemma with_order_id (i : nat) q : order q = Z.of_nat i → with_order i q = q.
Proof. destruct q. cbn. by intros ->. Qed.

Lemma renumber_well_ordered qs : well_ordered qs → renumber qs = qs.
Proof.
  intros Hwo. apply list_eq. intros i. rewrite lookup_renumber.
  destruct (qs !! i) as [q |] eqn:Hi; [| done].
  cbn. by rewrite with_order_id by by apply Hwo.
Qed.

Lemma well_ordered_take qs (n : nat) : well_ordered qs → well_ordered (take n qs).
Proof.
  intros Hwo i q Hi. apply lookup_take_Some in Hi as [Hi _]. by apply Hwo.
Qed.

Lemma renumber_prefix_well_ordered qs (n : nat) :
  well_ordered qs → renumber (take n qs) ++ drop n qs = qs.
Proof.
  intros Hwo. rewrite renumber_well_ordered by by apply well_ordered_take.
  apply take_drop.
Qed.

Lemma content_renumber_prefix qs (n : nat) :
  content <$> (renumber (take n qs) ++ drop n qs) = content <$> qs.
Proof. by rewrite fmap_app, content_renumber, <- fmap_app, take_drop. Qed.

Lemma with_questions_id (d : CreateFeedbackFormData) :
  with_questions (questions d) d = d.
Proof. by destruct d. Qed.

(** *** What each edit leaves behind *)

Lemma exec_addQuestion s :
  exec addQuestion s =
  {| route_id := route_id s;
     formData :=
       with_questions
         (questions (formData s)
          ++ [{| text := EmptyString; question_type := "text";
                 is_required := false;
                 order := Z.of_nat (length (questions (formData s)));
                 options := Some [] |}])
         (formData s);
     loading := loading s; effects := effects s |}.
Proof. reflexivity. Qed.

Lemma exec_removeQuestion index s :
  exec (removeQuestion index) s =
  {| route_id := route_id s;
     formData :=
       with_questions (renumber (delete index (questions (formData s))))
                      (formData s);
     loading := loading s; effects := effects s |}.
Proof.
  unfold removeQuestion. step_act. cbv [setFormData]. step_act.
  by rewrite without_index_delete.
Qed.

Lemma moveQuestion_run index direction s :
  moveQuestion index direction s =
  let qs := questions (formData s) in
  let newIndex := match direction with Up => pred index | Down => S index end in
  if match direction with
     | Up => bool_decide (index = 0%nat)
     | Down => bool_decide (S index = length qs)
     end
  then (Fulfilled tt, s)
  else
    match qs !! index, qs !! newIndex with
    | Some q_index, Some q_new =>
        (Fulfilled tt,
         {| route_id := route_id s;
            formData :=
              with_questions
                (renumber (<[newIndex := q_index]> (<[index := q_new]> qs)))
                (formData s);
            loading := loading s; effects := effects s |})
    | _, _ =>
        (Rejected type_error,
         {| route_id := route_id s;
            formData :=
              with_questions
                (renumber (take (Nat.min (Nat.min index newIndex) (length qs)) qs)
                 ++ drop (Nat.min (Nat.min index newIndex) (length qs)) qs)
                (formData s);
            loading := loading s; effects := effects s |})
    end.
Proof.
  unfold moveQuestion. step_act. cbv [setFormData]. step_act.
  destruct direction.
  - destruct (bool_decide (index = 0%nat)); [done |].
    by destruct (questions (formData s) !! index),
                (questions (formData s) !! pred index).
  - destruct (bool_decide (S index = length (questions (formData s)))); [done |].
    by destruct (questions (formData s) !! index),
                (questions (formData s) !! S index).
Qed.

Lemma moveQuestion_cases index direction s :
  MoveCase index direction s.
Proof.
  destruct direction.
  - (* up *)
    destruct index as [| i].
    { apply MoveNothing. by rewrite moveQuestion_run. }
    destruct (questions (formData s) !! S i) as [b |] eqn:Hb.
    + assert (is_Some (questions (formData s) !! i)) as [a Ha].
      { apply lookup_lt_is_Some. apply lookup_lt_Some in Hb. lia. }
      apply (MoveSwap _ _ _ i a b); auto.
      rewrite moveQuestion_run. cbn zeta. cbn [pred].
      rewrite bool_decide_eq_false_2 by done. by rewrite Hb, Ha.
    + apply (MoveThrow _ _ _ (Nat.min (Nat.min (S i) i)
                                (length (questions (formData s))))).
      { by apply lookup_ge_None in Hb. }
      rewrite moveQuestion_run. cbn zeta. cbn [pred].
      rewrite bool_decide_eq_false_2 by done. rewrite Hb.
      by destruct (questions (formData s) !! i).
  - (* down *)
    destruct (decide (S index = length (questions (formData s)))) as [Hlast | Hlast].
    { apply MoveNothing. rewrite moveQuestion_run. cbn zeta.
      by rewrite bool_decide_eq_true_2. }
    destruct (questions (formData s) !! index) as [a |] eqn:Ha.
    + assert (is_Some (questions (formData s) !! S index)) as [b Hb].
      { apply lookup_lt_is_Some. apply lookup_lt_Some in Ha. lia. }
      apply (MoveSwap _ _ _ index a b); auto.
      rewrite moveQuestion_run. cbn zeta.
      rewrite bool_decide_eq_false_2 by done. rewrite Ha, Hb.
      do 4 f_equal. apply list_insert_insert_ne. lia.
    + apply (MoveThrow _ _ _ (Nat.min (Nat.min index (S index))
                                (length (questions (formData s))))).
      { by apply lookup_ge_None in Ha. }
      rewrite moveQuestion_run. cbn zeta.
      rewrite bool_decide_eq_false_2 by done. by rewrite Ha.
Qed.

(** *** The order numbers *)

Lemma well_ordered_snoc qs q :
  well_ordered qs → order q = Z.of_nat (length qs) → well_ordered (qs ++ [q]).
Proof.
  intros Hwo Hq i q' Hi. apply lookup_app_Some in Hi as [Hi | [Hlen Hi]].
  - by apply Hwo.
  - apply list_lookup_singleton_Some in Hi as [Hi <-].
    rewrite Hq. f_equal. lia.
Qed.

Lemma apply_edit_keeps_order (ed : Edit) s :
  well_ordered (questions (formData s)) →
  well_ordered (questions (formData (exec (apply_edit ed) s))).
Proof.
  intros Hwo. destruct ed as [| index | index direction]; cbn [apply_edit].
  - rewrite exec_addQuestion. cbn [formData questions with_questions].
    by apply well_ordered_snoc.
  - rewrite exec_removeQuestion. cbn [formData questions with_questions].
    apply well_ordered_renumber.
  - unfold exec.
    destruct (moveQuestion_cases index direction s)
      as [-> | i a b _ _ _ -> | reached _ ->]; cbn [snd formData questions with_questions].
    + done.
    + apply well_ordered_renumber.
    + by rewrite renumber_prefix_well_ordered.
Qed.

(** X19: When every question carries its place as its [order], it still does
    after any list of [addQuestion], [removeQuestion] and [moveQuestion]
    calls, with whatever indices, failing ones included. *)
Theorem edits_keep_order (eds : list Edit) s :
  well_ordered (questions (formData s)) →
  well_ordered (questions (formData (edit eds s))).
Proof.
  revert s. induction eds as [| ed eds IH]; intros s Hwo; [done |].
  cbn [edit]. by apply IH, apply_edit_keeps_order.
Qed.

Lemma well_ordered_three : well_ordered three_questions.
Proof.
  intros i q Hi. destruct i as [| [| [| i]]]; cbn in Hi;
    try discriminate Hi; by injection Hi as <-.
Qed.

Lemma edits_keep_order_witness :
  well_ordered
    (questions (formData
       (edit [EdMove 2 Up; EdRemove 0; EdAdd; EdMove 7 Down; EdMove 0 Down]
             (editing three_questions)))).
Proof.
  apply (edits_keep_order
           [EdMove 2 Up; EdRemove 0; EdAdd; EdMove 7 Down; EdMove 0 Down]
           (editing three_questions)).
  exact well_ordered_three.
Defined.

(** *** removeQuestion *)


(** *** moveQuestion *)



Lemma moveQuestion_down_swap (i : nat) a b s :
  questions (formData s) !! i = Some a →
  questions (formData s) !! S i = Some b →
  moveQuestion i Down s =
  (Fulfilled tt,
   {| route_id := route_id s;
      formData :=
        with_questions
          (renumber (<[i := b]> (<[S i := a]> (questions (formData s)))))
          (formData s);
      loading := loading s; effects := effects s |}).
Proof.
  intros Ha Hb. pose proof (lookup_lt_Some _ _ _ Hb) as Hlen.
  rewrite moveQuestion_run. cbn zeta.
  rewrite bool_decide_eq_false_2 by lia. rewrite Ha, Hb.
  by rewrite (list_insert_insert_ne _ (S i) i) by lia.
Qed.

Lemma moveQuestion_up_swap (i : nat) a b s :
  questions (formData s) !! i = Some a →
  questions (formData s) !! S i = Some b →
  moveQuestion (S i) Up s = moveQuestion i Down s.
Proof.
  intros Ha Hb. rewrite (moveQuestion_down_swap i a b s Ha Hb).
  rewrite moveQuestion_run. cbn zeta. cbn [pred].
  rewrite bool_decide_eq_false_2 by lia. by rewrite Ha, Hb.
Qed.

Lemma moveQuestion_down_content (i : nat) a b s :
  questions (formData s) !! i = Some a →
  questions (formData s) !! S i = Some b →
  content <$> questions (formData (exec (moveQuestion i Down) s))
  = <[i := content b]> (<[S i := content a]> (content <$> questions (formData s))) ∧
  well_ordered (questions (formData (exec (moveQuestion i Down) s))).
Proof.
  intros Ha Hb. unfold exec. rewrite (moveQuestion_down_swap i a b s Ha Hb).
  cbn [snd formData questions with_questions]. split.
  - by rewrite content_renumber, !list_fmap_insert.
  - apply well_ordered_renumber.
Qed.

(** X22: For two neighbours, moving the first one down and moving the second
    one up are the same edit: it exchanges the two, leaves the others at
    their places, numbers all questions anew, and does not fail. *)
Theorem moveQuestion_neighbours (i : nat) a b s :
  questions (formData s) !! i = Some a →
  questions (formData s) !! S i = Some b →
  let s' := exec (moveQuestion i Down) s in
  exec (moveQuestion (S i) Up) s = s' ∧
  outcome (moveQuestion i Down) s = Fulfilled tt ∧
  outcome (moveQuestion (S i) Up) s = Fulfilled tt ∧
  content <$> questions (formData s')
  = <[i := content b]> (<[S i := content a]> (content <$> questions (formData s))) ∧
  well_ordered (questions (formData s')).
Proof.
  intros Ha Hb. cbn zeta.
  destruct (moveQuestion_down_content i a b s Ha Hb) as [Hc Hwo].
  unfold exec, outcome in *.
  rewrite (moveQuestion_up_swap i a b s Ha Hb).
  split; [done |].
  rewrite (moveQuestion_down_swap i a b s Ha Hb) in *. by cbn [fst].
Qed.

Lemma moveQuestion_neighbours_witness :
  content <$> questions (formData (exec (moveQuestion 0 Down)
                                        (editing loaded_questions)))
  = content <$> [question_named "b" 0; question_named "a" 1;
                 question_named "c" 2].
Proof.
  destruct (moveQuestion_neighbours 0 (question_named "a" 10)
              (question_named "b" 20) (editing loaded_questions)
              eq_refl eq_refl) as (_ & _ & _ & Hc & _).
  rewrite Hc. reflexivity.
Defined.

Lemma well_ordered_content_eq qs1 qs2 :
  well_ordered qs1 → well_ordered qs2 →
  content <$> qs1 = content <$> qs2 → qs1 = qs2.
Proof.
  intros H1 H2 Hc. apply list_eq. intros i.
  pose proof (f_equal (λ l, l !! i) Hc) as Hi. cbn in Hi.
  rewrite !list_lookup_fmap in Hi.
  destruct (qs1 !! i) as [q1 |] eqn:Hq1, (qs2 !! i) as [q2 |] eqn:Hq2;
    try discriminate Hi; [| done].
  apply H1 in Hq1. apply H2 in Hq2.
  destruct q1, q2. cbn in *. injection Hi as -> -> -> ->. congruence.
Qed.

Lemma moveQuestion_frame index direction s :
  exec (moveQuestion index direction) s =
  {| route_id := route_id s;
     formData :=
       with_questions
         (questions (formData (exec (moveQuestion index direction) s)))
         (formData s);
     loading := loading s; effects := effects s |}.
Proof.
  unfold exec.
  destruct (moveQuestion_cases index direction s)
    as [-> | i a b _ _ _ -> | reached _ ->]; cbn [snd]; [| done | done].
  destruct s as [r d l e]. cbn. f_equal. by destruct d.
Qed.

(** X23: Moving a question down and then down again from the same place puts
    every question back where it was; when the order numbers were in
    place, the page is exactly what it was. *)
Theorem moveQuestion_back (i : nat) a b s :
  questions (formData s) !! i = Some a →
  questions (formData s) !! S i = Some b →
  let s'' := exec (moveQuestion i Down) (exec (moveQuestion i Down) s) in
  content <$> questions (formData s'')
  = content <$> questions (formData s) ∧
  (well_ordered (questions (formData s)) → s'' = s).
Proof.
  intros Ha Hb. cbn zeta.
  destruct (moveQuestion_down_content i a b s Ha Hb) as [Hc1 Hwo1].
  set (s1 := exec (moveQuestion i Down) s) in *.
  assert (Hq1 : questions (formData s1)
                = renumber (<[i := b]> (<[S i := a]> (questions (formData s))))).
  { unfold s1, exec. by rewrite (moveQuestion_down_swap i a b s Ha Hb). }
  pose proof (lookup_lt_Some _ _ _ Ha) as Hia.
  pose proof (lookup_lt_Some _ _ _ Hb) as Hib.
  assert (Ha1 : questions (formData s1) !! i = Some (with_order i b)).
  { rewrite Hq1, lookup_renumber, list_lookup_insert_eq; [done |].
    rewrite length_insert. lia. }
  assert (Hb1 : questions (formData s1) !! S i = Some (with_order (S i) a)).
  { rewrite Hq1, lookup_renumber, list_lookup_insert_ne by lia.
    rewrite list_lookup_insert_eq; [done | lia]. }
  destruct (moveQuestion_down_content i _ _ s1 Ha1 Hb1) as [Hc2 Hwo2].
  assert (Hcontent :
    content <$> questions (formData (exec (moveQuestion i Down) s1))
    = content <$> questions (formData s)).
  { rewrite Hc2, Hc1.
    change (content (with_order (S i) a)) with (content a).
    change (content (with_order i b)) with (content b).
    rewrite (list_insert_insert_ne _ i (S i)) by lia.
    rewrite list_insert_insert_eq.
    rewrite (list_insert_insert_ne _ (S i) i) by lia.
    rewrite list_insert_insert_eq.
    rewrite (list_insert_id _ (S i)) by by rewrite list_lookup_fmap, Hb.
    apply list_insert_id. by rewrite list_lookup_fmap, Ha. }
  split; [done |].
  intros Hwo.
  pose proof (well_ordered_content_eq _ _ Hwo2 Hwo Hcontent) as Hqs.
  rewrite (moveQuestion_frame i Down s1), Hqs.
  unfold s1. rewrite (moveQuestion_frame i Down s).
  cbn [route_id formData loading effects].
  destruct s as [r d l e]. cbn. f_equal. by destruct d.
Qed.

Lemma moveQuestion_back_witness :
  exec (moveQuestion 1 Down)
       (exec (moveQuestion 1 Down) (editing three_questions))
  = editing three_questions.
Proof.
  apply (moveQuestion_back 1 (question_named "b" 1) (question_named "c" 2)
           (editing three_questions) eq_refl eq_refl).
  exact well_ordered_three.
Defined.

(** X24: An index beyond the end makes [moveQuestion] fail with a type error
    (moving up from place 0 is the one exception: it does nothing); no
    question is lost on the way, and when the order numbers were in place
    the page is what it was. *)
Theorem moveQuestion_beyond_end index direction s :
  (length (questions (formData s)) ≤ index)%nat →
  index ≠ 0%nat ∨ direction = Down →
  let s' := exec (moveQuestion index direction) s in
  outcome (moveQuestion index direction) s = Rejected type_error ∧
  content <$> questions (formData s') = content <$> questions (formData s) ∧
  (well_ordered (questions (formData s)) → s' = s).
Proof.
  intros Hlen Hnot. cbn zeta. unfold exec, outcome.
  rewrite moveQuestion_run. cbn zeta.
  assert (Hnone : questions (formData s) !! index = None)
    by by apply lookup_ge_None.
  rewrite Hnone.
  assert (Hgo : (match direction with
                 | Up => bool_decide (index = 0%nat)
                 | Down => bool_decide (S index = length (questions (formData s)))
                 end) = false).
  { destruct direction.
    - destruct Hnot as [? | ?]; [by apply bool_decide_eq_false_2 | done].
    - apply bool_decide_eq_false_2. lia. }
  rewrite Hgo. cbn [fst snd formData questions with_questions].
  split; [done |]. split; [apply content_renumber_prefix |].
  intros Hwo. rewrite renumber_prefix_well_ordered by done.
  destruct s as [r d l e]. cbn. f_equal. by destruct d.
Qed.

Lemma moveQuestion_beyond_end_witness :
  outcome (moveQuestion 3 Up) (editing three_questions) = Rejected type_error ∧
  exec (moveQuestion 3 Up) (editing three_questions) = editing three_questions.
Proof.
  destruct (moveQuestion_beyond_end 3 Up (editing three_questions))
    as (Ho & _ & Hs); [cbn; lia | by left |].
  split; [exact Ho | apply Hs, well_ordered_three].
Defined.

End FormEditorFacts.

(** ** Properties of the submission checks *)

Section FormSubmitFacts.
Import FormEditor FormSubmit.

Implicit Types (s : Editor) (q : CreateQuestionData) (d : CreateFeedbackFormData).
Implicit Types (qs : list CreateQuestionData) (l : list ascii).

(** *** Trimming *)

Lemma drop_white_space_nil l :
  drop_white_space l = [] ↔ Forall (λ c, is_white_space c = true) l.
Proof.
  induction l as [| c l IH]; cbn [drop_white_space].
  - split; [constructor | done].
  - destruct (is_white_space c) eqn:Hc.
    + rewrite IH, Forall_cons. tauto.
    + split; [discriminate |]. intros [Hc' _]%Forall_cons. congruence.
Qed.

Lemma drop_white_space_all l :
  Forall (λ c, is_white_space c = true) (drop_white_space l) →
  Forall (λ c, is_white_space c = true) l.
Proof.
  induction l as [| c l IH]; cbn [drop_white_space]; [done |].
  destruct (is_white_space c) eqn:Hc.
  - intros H. constructor; auto.
  - done.
Qed.

Lemma of_chars_nil l : of_chars l = EmptyString ↔ l = [].
Proof. by destruct l. Qed.

Lemma blank_true (t : string) :
  blank t = true ↔ Forall (λ c, is_white_space c = true) (chars t).
Proof.
  unfold blank, trim. rewrite bool_decide_eq_true, of_chars_nil. split.
  - intros H. apply (f_equal reverse) in H.
    rewrite reverse_involutive, reverse_nil in H.
    apply drop_white_space_nil in H. rewrite Forall_reverse in H.
    by apply drop_white_space_all.
  - intros H. apply drop_white_space_nil in H. by rewrite H.
Qed.

Lemma blank_false (t : string) : blank t = false ↔ has_text t.
Proof.
  unfold has_text. split.
  - intros Hb.
    assert (Hnot : ¬ Forall (λ c, is_white_space c = true) (chars t)).
    { rewrite <- blank_true. congruence. }
    apply not_Forall_Exists in Hnot; [| intros c; apply _].
    eapply Exists_impl; [exact Hnot |].
    intros c Hc. cbn in Hc. by destruct (is_white_space c).
  - intros Hex. apply not_true_iff_false. intros Hb%blank_true.
    apply Exists_exists in Hex as (c & Hc & Hf).
    rewrite Forall_forall in Hb. specialize (Hb c Hc). congruence.
Qed.

(** *** The checks *)

Lemma is_choice_true (t : string) :
  is_choice t = true ↔ t = "radio" ∨ t = "checkbox".
Proof. unfold is_choice. by rewrite orb_true_iff, !bool_decide_eq_true. Qed.

Lemma too_few_options_false (o : option (list string)) :
  too_few_options o = false ↔
  ∃ opts : list string, o = Some opts ∧ (2 ≤ length opts)%nat.
Proof.
  destruct o as [opts |]; cbn.
  - rewrite bool_decide_eq_false. split.
    + intros H. exists opts. split; [done | lia].
    + intros (opts' & [= <-] & H). lia.
  - split; [discriminate | by intros (opts & ? & _)].
Qed.

Lemma passes_checks q :
  passes q ↔
  blank (text q) = false ∧
  is_choice (question_type q) && too_few_options (options q) = false.
Proof.
  unfold passes. rewrite blank_false, andb_false_iff.
  rewrite <- too_few_options_false, <- is_choice_true.
  destruct (is_choice (question_type q)); intuition congruence.
Qed.

Lemma check_questions_None (i : nat) qs :
  check_questions i qs = None ↔ Forall passes qs.
Proof.
  revert i. induction qs as [| q qs IH]; intros i; cbn [check_questions].
  - split; [constructor | done].
  - rewrite Forall_cons, passes_checks, <- (IH (S i)).
    destruct (blank (text q)); [intuition congruence |].
    destruct (is_choice (question_type q) && too_few_options (options q));
      intuition congruence.
Qed.

Lemma submittable_checks d :
  submittable d ↔
  blank (title d) = false ∧
  bool_decide (length (questions d) = 0%nat) = false ∧
  check_questions 0 (questions d) = None.
Proof.
  unfold submittable.
  rewrite blank_false, bool_decide_eq_false, check_questions_None.
  by rewrite length_zero_iff_nil.
Qed.

Lemma exec_handleSubmit_alert kind reply s :
  ¬ submittable (formData s) →
  ∃ msg,
    exec (handleSubmit kind reply) s =
    {| route_id := route_id s; formData := formData s; loading := loading s;
       effects := Alert msg :: PreventDefault :: effects s |}.
Proof.
  rewrite submittable_checks. intros Hnot.
  unfold handleSubmit. step_act. cbv [perform]. step_act.
  cbn [formData].
  destruct (blank (title (formData s))); [by eexists |].
  destruct (bool_decide (length (questions (formData s)) = 0%nat)); [by eexists |].
  destruct (check_questions 0 (questions (formData s))) as [msg |];
    [by eexists | by destruct Hnot].
Qed.

Lemma exec_handleSubmit_saved kind reply s :
  submittable (formData s) →
  exec (handleSubmit kind reply) s =
  {| route_id := route_id s; formData := formData s; loading := false;
     effects :=
       match reply, kind with
       | Fulfilled r, Creating =>
           [Navigate ("/admin/forms/" +:+ saved_id r +:+ "/analytics");
            CreateFormCall (formData s)]
       | Fulfilled r, Editing =>
           [Navigate "/admin/forms";
            Alert ("Form " +:+ NotificationContext.dquote +:+ saved_title r
                   +:+ NotificationContext.dquote +:+ " updated successfully!");
            UpdateFormCall (route_id s) (formData s)]
       | Rejected e, Creating =>
           [Alert "Failed to create form. Please try again.";
            ConsoleError "Failed to create form:" e;
            CreateFormCall (formData s)]
       | Rejected e, Editing =>
           [Alert "Failed to update form. Please try again.";
            ConsoleError "Failed to update form:" e;
            UpdateFormCall (route_id s) (formData s)]
       end ++ PreventDefault :: effects s |}.
Proof.
  rewrite submittable_checks. intros (Ht & Hl & Hc).
  unfold handleSubmit. step_act. cbv [perform]. step_act.
  cbn [formData]. rewrite Ht, Hl, Hc.
  cbv [setLoading save saved not_saved perform]. step_act.
  by destruct reply, kind.
Qed.

(** X25: Neither page sends a form to the server unless the title has a
    character that is not white space, there is a question, every question
    has such a text, and every single or multiple choice has two options or
    more.  A form that fails gets one alert and nothing else; a form that
    passes is sent once, as it is, and the submit button is released
    whether the server accepts it or not. *)
Theorem handleSubmit_checks_first kind reply s :
  let s' := exec (handleSubmit kind reply) s in
  (submittable (formData s) →
   save_calls s' = formData s :: save_calls s ∧
   loading s' = false ∧
   formData s' = formData s) ∧
  (¬ submittable (formData s) →
   save_calls s' = save_calls s ∧
   (∃ msg, effects s' = Alert msg :: PreventDefault :: effects s) ∧
   loading s' = loading s ∧
   formData s' = formData s).
Proof.
  cbn zeta. split.
  - intros Hok. rewrite (exec_handleSubmit_saved _ _ _ Hok).
    cbn [loading formData]. split; [| done].
    unfold save_calls. cbn [effects]. by destruct reply, kind.
  - intros Hnot.
    destruct (exec_handleSubmit_alert kind reply s Hnot) as [msg ->].
    cbn [loading formData effects]. split; [done |]. eauto.
Qed.

Lemma has_text_sample (c : ascii) (t : string) :
  is_white_space c = false → has_text (String c t).
Proof. intros Hc. by apply Exists_cons_hd. Qed.

Lemma handleSubmit_checks_first_witness :
  save_calls (exec (handleSubmit Creating (Fulfilled created)) (editing good_form))
  = [formData (editing good_form)] ∧
  save_calls (exec (handleSubmit Creating (Fulfilled created)) (editing bad_form))
  = [].
Proof.
  split.
  - apply (handleSubmit_checks_first Creating (Fulfilled created)
             (editing good_form)).
    split; [by apply has_text_sample |]. split; [done |].
    repeat constructor; try (by apply has_text_sample).
    + intros [H | H]; discriminate H.
    + intros _. eexists. split; [reflexivity | cbn; lia].
  - apply (handleSubmit_checks_first Creating (Fulfilled created)
             (editing bad_form)).
    intros (_ & _ & Hall). cbn in Hall.
    apply Forall_cons in Hall as [_ Hall].
    apply Forall_cons in Hall as [[_ Hopt] _].
    destruct Hopt as (opts & [= <-] & Hlen); [by left |]. cbn in Hlen. lia.
Defined.

Lemma check_questions_first_blank (i : nat) (good rest : list CreateQuestionData) q :
  Forall passes good →
  blank (text q) = true →
  check_questions i (good ++ q :: rest)
  = Some ("Please enter text for question " +:+ pretty (i + length good + 1)%nat).
Proof.
  revert i. induction good as [| g good IH]; intros i Hgood Hq.
  - cbn [app check_questions length]. rewrite Hq. do 3 f_equal. lia.
  - apply Forall_cons in Hgood as [Hg Hgood].
    apply passes_checks in Hg as [Hg1 Hg2].
    cbn [app check_questions length]. rewrite Hg1, Hg2.
    rewrite (IH (S i)) by done. do 3 f_equal. lia.
Qed.

(** X26: The alert names the first question that is found wanting, counting
    from 1: when the title is there and the questions before it pass, a
    question without text is reported under its place plus one. *)
Theorem handleSubmit_names_first_blank kind reply s
    (good rest : list CreateQuestionData) q :
  has_text (title (formData s)) →
  questions (formData s) = good ++ q :: rest →
  Forall passes good →
  ¬ has_text (text q) →
  effects (exec (handleSubmit kind reply) s)
  = Alert ("Please enter text for question " +:+ pretty (length good + 1)%nat)
      :: PreventDefault :: effects s.
Proof.
  intros Ht Hqs Hgood Hq.
  apply blank_false in Ht.
  assert (Hb : blank (text q) = true).
  { destruct (blank (text q)) eqn:Hb; [done |]. by apply blank_false in Hb. }
  unfold handleSubmit. step_act. cbv [perform]. step_act.
  cbn [formData]. rewrite Ht, Hqs.
  rewrite bool_decide_eq_false_2 by (rewrite length_app; cbn; lia).
  by rewrite (check_questions_first_blank 0 good rest q Hgood Hb).
Qed.

Lemma handleSubmit_names_first_blank_witness :
  effects (exec (handleSubmit Editing (Fulfilled created))
                (editing [question_named "Your name" 0; question_named " " 1]))
  = [Alert "Please enter text for question 2"; PreventDefault].
Proof.
  apply (handleSubmit_names_first_blank Editing (Fulfilled created)
           (editing [question_named "Your name" 0; question_named " " 1])
           [question_named "Your name" 0] [] (question_named " " 1)).
  - by apply has_text_sample.
  - reflexivity.
  - apply Forall_cons. split; [| constructor].
    split; [by apply has_text_sample | intros [H | H]; discriminate H].
  - intros H. apply blank_false in H. discriminate H.
Defined.

(** *** The entry page *)

(** X27: [handleFormAccess] goes to "/feedback/" followed by the trimmed id
    when the id has a character that is not white space, and nowhere
    otherwise (it shows an error instead); the page it goes to is one on
    which the path-reading response interceptor does not redirect. *)
Theorem handleFormAccess_goes_to_public_view (e : Entry) :
  let e' := exec handleFormAccess e in
  (has_text (formId e) →
   visited e' = ("/feedback/" +:+ trim (formId e)) :: visited e ∧
   trim (formId e) ≠ EmptyString ∧
   error e' = error e ∧
   Api.on_login_or_public_view ("/feedback/" +:+ trim (formId e)) = true) ∧
  (¬ has_text (formId e) →
   visited e' = visited e ∧ error e' = "Please enter a valid form ID").
Proof.
  cbn zeta. unfold handleFormAccess. step_act. cbn [formId].
  destruct (blank (formId e)) eqn:Hb; cbn [visited error]; split.
  - intros Ht. apply blank_false in Ht. congruence.
  - done.
  - intros _. split; [done |]. split.
    + unfold blank in Hb. by apply bool_decide_eq_false in Hb.
    + split; [done |]. unfold Api.on_login_or_public_view.
      apply orb_true_iff. right. apply includes_spec.
      by exists EmptyString, (trim (formId e)).
  - intros Hnot. by apply blank_false in Hb.
Qed.

Lemma handleFormAccess_goes_to_public_view_witness :
  visited (exec handleFormAccess
             {| formId := "  42 "; error := EmptyString;
                default_prevented := false; visited := [] |})
  = ["/feedback/42"].
Proof.
  apply (handleFormAccess_goes_to_public_view
           {| formId := "  42 "; error := EmptyString;
              default_prevented := false; visited := [] |}).
  do 2 apply Exists_cons_tl. by apply Exists_cons_hd.
Defined.

End FormSubmitFacts.

(** ** Properties of the chart data and of the forms list *)

Section ChartsFacts.
Import Charts.

Implicit Types (question : QuestionAnalytics) (i j n : nat).

Lemma NoDup_colors : NoDup colors.
Proof. apply (bool_decide_unpack (NoDup colors)). by vm_compute. Qed.

Lemma NoDup_choice_colors : NoDup choice_colors.
Proof. apply (bool_decide_unpack (NoDup choice_colors)). by vm_compute. Qed.

Lemma lookup_generateColors n i :
  (i < n)%nat → generateColors n !! i = colors !! (i mod 10)%nat.
Proof.
  intros Hi. unfold generateColors.
  rewrite list_lookup_fmap, lookup_seq_lt by done. cbn [fmap option_fmap option_map plus].
  symmetry. apply list_lookup_lookup_total_lt.
  change (length colors) with 10%nat. apply Nat.mod_upper_bound. lia.
Qed.

Lemma length_generateColors n : length (generateColors n) = n.
Proof. unfold generateColors. by rewrite length_fmap, length_seq. Qed.

Lemma generateColors_same n i j :
  (i < n)%nat → (j < n)%nat →
  generateColors n !! i = generateColors n !! j ↔ (i mod 10 = j mod 10)%nat.
Proof.
  intros Hi Hj. rewrite !lookup_generateColors by done. split.
  - intros Heq.
    assert (is_Some (colors !! (i mod 10)%nat)) as [c Hc].
    { apply lookup_lt_is_Some. change (length colors) with 10%nat.
      apply Nat.mod_upper_bound. lia. }
    rewrite Hc in Heq. by apply (NoDup_lookup colors _ _ c NoDup_colors).
  - by intros ->.
Qed.

(** X28: In the later revision every answer of the chart has a background and
    a border colour, and two answers have the same colour exactly when
    their places differ by a multiple of ten. *)
Theorem getQuestionChartData_colours question :
  let chart := getQuestionChartData question in
  let n := length (answer_distribution question) in
  length (labels chart) = n ∧
  length (data chart) = n ∧
  length (item_colours (backgroundColor chart)) = n ∧
  (∃ cs, borderColor chart = Some (PerItem cs) ∧ length cs = n) ∧
  (∀ i j, (i < n)%nat → (j < n)%nat →
     item_colours (backgroundColor chart) !! i
     = item_colours (backgroundColor chart) !! j ↔
     (i mod 10 = j mod 10)%nat).
Proof.
  cbn zeta. unfold getQuestionChartData, keys, values.
  cbn [labels data backgroundColor borderColor item_colours].
  assert (Hn : length (answer_distribution question).*1
               = length (answer_distribution question)) by apply length_fmap.
  rewrite Hn.
  split; [done |]. split; [apply length_fmap |].
  split; [apply length_generateColors |].
  split.
  - eexists. split; [done |]. by rewrite length_fmap, length_generateColors.
  - intros i j Hi Hj. by apply generateColors_same.
Qed.

Lemma is_choice_chart question :
  question_type question = "radio" ∨ question_type question = "checkbox"
  ∨ question_type question = "yes_no" →
  getQuestionChartData_earlier question =
  Some {| labels := keys (answer_distribution question);
          dataset_label := None;
          data := values (answer_distribution question);
          backgroundColor :=
            PerItem (take (length (keys (answer_distribution question)))
                          choice_colors);
          borderColor := None;
          borderWidth := 1;
          hoverBorderWidth := None |}.
Proof.
  unfold getQuestionChartData_earlier.
  intros [-> | [-> | ->]]; reflexivity.
Qed.

(** X29: In the earlier revision a choice chart takes its colours from the
    front of a list of ten: the answers get different colours, and from
    the eleventh answer on there is no colour left, where the later
    revision still has one. *)
Theorem earlier_chart_runs_out_of_colours question :
  question_type question = "radio" ∨ question_type question = "checkbox"
  ∨ question_type question = "yes_no" →
  ∃ chart,
    getQuestionChartData_earlier question = Some chart ∧
    labels chart = labels (getQuestionChartData question) ∧
    data chart = data (getQuestionChartData question) ∧
    NoDup (item_colours (backgroundColor chart)) ∧
    length (item_colours (backgroundColor chart))
    = Nat.min (length (answer_distribution question)) 10 ∧
    (∀ i, (10 ≤ i)%nat → (i < length (answer_distribution question))%nat →
       item_colours (backgroundColor chart) !! i = None ∧
       is_Some (item_colours (backgroundColor (getQuestionChartData question))
                !! i)).
Proof.
  intros Htype. eexists. split; [by apply is_choice_chart |].
  cbn [labels data backgroundColor item_colours].
  unfold getQuestionChartData, keys. cbn [labels data backgroundColor item_colours].
  rewrite length_fmap.
  split; [done |]. split; [done |].
  split; [eapply sublist_NoDup; [apply NoDup_choice_colors | apply sublist_take] |].
  split; [by rewrite length_take |].
  intros i H10 Hi. split.
  - apply lookup_ge_None. rewrite length_take. change (length choice_colors) with 10%nat. lia.
  - apply lookup_lt_is_Some. by rewrite length_generateColors.
Qed.

Lemma earlier_chart_runs_out_of_colours_witness :
  ∃ chart,
    getQuestionChartData_earlier twelve_answers = Some chart ∧
    length (item_colours (backgroundColor chart)) = 10%nat ∧
    length (labels chart) = 12%nat.
Proof.
  destruct (earlier_chart_runs_out_of_colours twelve_answers)
    as (chart & Hc & Hl & _ & _ & Hn & _); [right; by left |].
  exists chart. split; [exact Hc |]. split; [exact Hn |].
  rewrite Hl. reflexivity.
Defined.

End ChartsFacts.

Section FormsListFacts.
Import FormsList.

Implicit Types (s : Listing) (formId : string).

(** X30: A form is deleted from the list only when the user has confirmed and
    the server has accepted: then the forms with that id are gone and the
    others are there as before, in their order.  Without confirmation no
    request is made; when the request fails the list stays and the user is
    told. *)
Theorem handleDeleteForm_outcomes (confirmed : bool) (reply : Settled unit) formId s :
  let s' := exec (handleDeleteForm confirmed reply formId) s in
  (confirmed = false →
   forms s' = forms s ∧ delete_calls s' = delete_calls s) ∧
  (confirmed = true → is_fulfilled reply = false →
   forms s' = forms s ∧
   delete_calls s' = formId :: delete_calls s ∧
   Alert "Failed to delete form" ∈ effects s') ∧
  (confirmed = true → is_fulfilled reply = true →
   delete_calls s' = formId :: delete_calls s ∧
   (∀ form, form ∈ forms s' ↔ form ∈ forms s ∧ id form ≠ formId) ∧
   forms s' `sublist_of` forms s).
Proof.
  cbn zeta. unfold handleDeleteForm. step_act. cbv [perform setForms]. step_act.
  destruct confirmed, reply as [[] | e]; cbn [forms effects];
    (split; [intros Hc | split; [intros Hc Hr | intros Hc Hr]]);
    try discriminate Hc; try discriminate Hr.
  - split; [done |]. split; [| apply sublist_filter].
    intros form. rewrite list_elem_of_filter. tauto.
  - split; [done |]. split; [done | apply list_elem_of_here].
  - done.
  - done.
Qed.

Lemma handleDeleteForm_outcomes_witness :
  forms (exec (handleDeleteForm true (Fulfilled tt) "b") three_rows)
  `sublist_of` forms three_rows ∧
  forms (exec (handleDeleteForm false (Fulfilled tt) "b") three_rows)
  = forms three_rows.
Proof.
  destruct (handleDeleteForm_outcomes true (Fulfilled tt) "b" three_rows)
    as (_ & _ & Hok).
  destruct (handleDeleteForm_outcomes false (Fulfilled tt) "b" three_rows)
    as (Hno & _).
  split; [apply Hok; reflexivity | apply Hno; reflexivity].
Defined.

End FormsListFacts.
